(** * Render.py of pygame-hex-grid: hexagonal grid geometry and drawing

    A shallow embedding of [src/Render.py] (Python 2) and the properties
    of its geometry ([width], [height], [get_surface], [get_cell]) and of
    its two renderers ([RenderGrid.draw], [RenderUnits.draw]).

    Conventions of the embedding.
    - Python floats are read as real numbers ([R]); [SQRT3] is [sqrt 3].
      [math.floor] and [math.ceil] return integer-valued floats in
      Python 2: they are modelled with results in [Z], injected back with
      [IZR] wherever the source goes on computing with them.
    - A float division raises [ZeroDivisionError] on a zero divisor; code
      that divides by an expression of the radius lives in the [outcome]
      monad.  Divisions by the literal [2] or [2.0] cannot raise.
    - The map object ([Map.py]) is not part of the source: it is a record
      of what [Render.py] reads from it.
    - The pygame surface is a record of its colorkey, its pixel buffer and
      the list of drawing calls received so far; the rasterisers of pygame
      and the [paint] callbacks of the units are an interface
      ([DrawingLibrary]).
    - [pygame.Rect] keeps the integer parts of its float arguments, and
      [Surface.subsurface] raises [ValueError] for a rectangle that is not
      inside the surface; a [draw] that raises leaves the surface as it
      was when the exception occurred. *)

From Stdlib Require Import ZArith List Bool Lia.
From Stdlib Require Import Reals Lra.
From stdpp Require Import base option list gmap.

Import ListNotations.
Local Open Scope R_scope.

(** ** Python values and exceptions *)

Inductive exn : Set :=
| ZeroDivisionError
| ValueError.

Inductive outcome (A : Type) : Type :=
| Raised (e : exn)
| Returned (a : A).

Arguments Raised {A} e.
Arguments Returned {A} a.

Definition obind {A B : Type} (c : outcome A) (k : A -> outcome B) : outcome B :=
  match c with
  | Raised e => Raised e
  | Returned a => k a
  end.

Notation "'try!' x ':=' c 'in' k" := (obind c (fun x => k))
  (at level 10, x name, c at level 100, k at level 200).

(** [a / b] on floats. *)
Definition py_div (a b : R) : outcome R :=
  if Req_dec_T b 0 then Raised ZeroDivisionError else Returned (a / b).

(** [math.floor] and [math.ceil]. *)
Definition math_floor (x : R) : Z := Int_part x.
Definition math_ceil (x : R) : Z := (- Int_part (- x))%Z.

(** Comparisons of floats, as booleans. *)
Definition Rlt_b (a b : R) : bool := if Rlt_dec a b then true else false.
Definition Rgt_b (a b : R) : bool := Rlt_b b a.

#[global] Instance Rlt_decision (a b : R) : Decision (a < b) := Rlt_dec a b.
#[global] Instance Rgt_decision (a b : R) : Decision (a > b) := Rlt_dec b a.

(** [range(n)] *)
Definition py_range (n : Z) : list Z := seqZ 0 n.

(** [SQRT3 = math.sqrt( 3 )] *)
Definition SQRT3 : R := sqrt 3.

(** ** The map object and the surface *)

Inductive Color : Set :=
| RGB (red green blue : Z).

(** The four float arguments of [pygame.Rect( left, top, width, height )]. *)
Record Rect : Type := mkRect {
  rect_left : R;
  rect_top : R;
  rect_width : R;
  rect_height : R
}.

Definition rect_right (q : Rect) : R := rect_left q + rect_width q.
Definition rect_bottom (q : Rect) : R := rect_top q + rect_height q.
Definition rect_center (q : Rect) : R * R :=
  (rect_left q + rect_width q / 2, rect_top q + rect_height q / 2).

(** A rectangle lies inside a canvas of size [w] x [h]. *)
Definition rect_inside (q : Rect) (w h : R) : Prop :=
  0 <= rect_left q /\ 0 <= rect_top q /\ rect_right q <= w /\ rect_bottom q <= h.

(** A point lies in a rectangle, the right and bottom edges excluded. *)
Definition rect_contains (q : Rect) (p : R * R) : Prop :=
  rect_left q <= fst p < rect_right q /\ rect_top q <= snd p < rect_bottom q.

(** The rectangle [pygame.Rect] makes of them: integer coordinates, each
    float cut to its integer part (towards zero). *)
Record IRect : Type := mkIRect {
  irect_x : Z;
  irect_y : Z;
  irect_w : Z;
  irect_h : Z
}.

Definition trunc (x : R) : Z :=
  if Rlt_dec x 0 then math_ceil x else math_floor x.

Definition pygame_Rect (q : Rect) : IRect :=
  mkIRect (trunc (rect_left q)) (trunc (rect_top q))
          (trunc (rect_width q)) (trunc (rect_height q)).

Definition irect_right (q : IRect) : Z := (irect_x q + irect_w q)%Z.
Definition irect_bottom (q : IRect) : Z := (irect_y q + irect_h q)%Z.

Section Render.

Context {Unit : Type}.

(** What [Render.py] uses of the map: [map.rows], [map.cols],
    [map.valid_cell( ( row, col ) )] and the dict [map.positions]. *)
Record Map : Type := mkMap {
  rows : Z;
  cols : Z;
  valid_cell : Z * Z -> bool;
  positions : gmap (Z * Z) Unit
}.

(** *** Geometry *)

Definition width (m : Map) (radius : R) : R :=
  IZR (math_ceil (IZR (cols m) / 2)) * 2 * radius +
  IZR (math_floor (IZR (cols m) / 2)) * radius + 1.

Definition height (m : Map) (radius : R) : R :=
  (IZR (rows m) + 0.5) * radius * SQRT3 + 1.

(** The arithmetic of [get_surface]: the floats [left], [top], [width] and
    [height] it passes to [pygame.Rect].  The whole method, with the
    integer rectangle and the call of [self.subsurface], is
    [Render_get_surface] below. *)
Definition get_surface (radius : R) (cell : Z * Z) : Rect :=
  let '(row, col) := cell in
  let width := 2 * radius in
  let height := radius * SQRT3 in
  let top := (IZR row - IZR (math_ceil (IZR col / 2))) * height
             + (if (col mod 2 =? 1)%Z then height / 2 else 0) in
  let left := 1.5 * radius * IZR col in
  mkRect left top width height.

(** [get_cell], up to the boundary correction: the [( row, col )] that is
    then submitted to [valid_cell]. *)
Definition get_cell_resolve (radius : R) (p : R * R) : outcome (Z * Z) :=
  let '(x, y) := p in
  try! qy := py_div y (SQRT3 * radius) in
  let row := math_floor qy in
  try! qx := py_div x (1.5 * radius) in
  let col := math_floor qx in
  let x := x - IZR col * 1.5 * radius in
  let y := y - IZR row * SQRT3 * radius in
  let row := (row + math_floor ((IZR col + 1) / 2))%Z in
  Returned
    (if (col mod 2 =? 0)%Z then
       if Rlt_b y (SQRT3 * radius / 2) && Rlt_b x (0.5 * radius) &&
          Rlt_b y (SQRT3 * radius / 2 - x)
       then (row - 1, col - 1)%Z
       else if Rgt_b y (SQRT3 * radius / 2) && Rlt_b x (0.5 * radius) &&
               Rgt_b y (SQRT3 * radius / 2 + x)
       then (row, col - 1)%Z
       else (row, col)
     else
       if Rlt_b x (0.5 * radius) &&
          Rlt_b (Rabs (y - SQRT3 * radius / 2)) (SQRT3 * radius / 2 - x)
       then (row - 1, col - 1)%Z
       else if Rlt_b y (SQRT3 * radius / 2)
       then (row - 1, col)%Z
       else (row, col)).

Definition get_cell (m : Map) (radius : R) (p : R * R) : outcome (option (Z * Z)) :=
  try! cell := get_cell_resolve radius p in
  Returned (if valid_cell m cell then Some cell else None).

(** The hexagon of a cell as the specification places it: the point list
    of one cell moved to [left = 1.5 * radius * col] and
    [top = sqrt 3 * radius * row], half a cell lower in an odd column. *)
Definition hexagon_at (radius : R) (row col : Z) : list (R * R) :=
  let left := 1.5 * radius * IZR col in
  let top := SQRT3 * radius * IZR row
             + (if Z.odd col then SQRT3 * radius / 2 else 0) in
  (fun '(x, y) => (x + left, y + top)) <$>
    [ (0.5 * radius, 0); (1.5 * radius, 0); (2 * radius, SQRT3 / 2 * radius);
      (1.5 * radius, SQRT3 * radius); (0.5 * radius, SQRT3 * radius);
      (0, SQRT3 / 2 * radius) ].

(** The cell lookup as the specification words it (PixelToCell, steps 1
    to 5), to be compared with [get_cell]. *)
Definition PixelToCell_resolve (radius x y : R) : Z * Z :=
  let row0 := Int_part (y / (SQRT3 * radius)) in
  let col0 := Int_part (x / (1.5 * radius)) in
  let lx := x - IZR col0 * 1.5 * radius in
  let ly := y - IZR row0 * SQRT3 * radius in
  let row1 := (row0 + Int_part ((IZR col0 + 1) / 2))%Z in
  if Z.even col0 then
    if decide (ly < SQRT3 * radius / 2 /\ lx < 0.5 * radius /\
               ly < SQRT3 * radius / 2 - lx)
    then (row1 - 1, col0 - 1)%Z
    else if decide (ly > SQRT3 * radius / 2 /\ lx < 0.5 * radius /\
                    ly > SQRT3 * radius / 2 + lx)
    then (row1, col0 - 1)%Z
    else (row1, col0)
  else
    if decide (lx < 0.5 * radius /\
               Rabs (ly - SQRT3 * radius / 2) < SQRT3 * radius / 2 - lx)
    then (row1 - 1, col0 - 1)%Z
    else if decide (ly < SQRT3 * radius / 2)
    then (row1 - 1, col0)%Z
    else (row1, col0).

Definition PixelToCell (m : Map) (radius x y : R) : option (Z * Z) :=
  let cell := PixelToCell_resolve radius x y in
  if valid_cell m cell then Some cell else None.

(** *** The surface *)

(** The calls a surface receives that change it. [CallPaint u q] is
    [u.paint( self.subsurface( q ) )]. *)
Inductive Call : Type :=
| CallSetColorkey (c : Color)
| CallFill (c : Color)
| CallPolygon (c : Color) (points : list (R * R)) (line_width : Z)
| CallPaint (u : Unit) (q : IRect).

(** The pixel buffer, a list of lines of pixels, and its dimensions. *)
Definition shape (b : list (list Color)) : list nat := length <$> b.

(** [Surface.get_width()] and [Surface.get_height()]. *)
Definition surf_w (b : list (list Color)) : Z :=
  match b with
  | [] => 0
  | line :: _ => Z.of_nat (length line)
  end.

Definition surf_h (b : list (list Color)) : Z := Z.of_nat (length b).

(** The test of [Surface.subsurface]: the rectangle is inside the surface. *)
Definition inside_surface (q : IRect) (b : list (list Color)) : bool :=
  negb ((irect_x q <? 0)%Z || (irect_y q <? 0)%Z ||
        (surf_w b <? irect_x q + irect_w q)%Z ||
        (surf_h b <? irect_y q + irect_h q)%Z).

(** [Surface.fill( color )] without a rectangle: every pixel. *)
Definition fill_px (c : Color) (b : list (list Color)) : list (list Color) :=
  (fun line : list Color => (fun _ => c) <$> line) <$> b.

(** The rasteriser of [pygame.draw.polygon] and the [paint] methods of the
    units: functions of the buffer that keep its dimensions. *)
Class DrawingLibrary : Type := {
  polygon_px : Color -> list (R * R) -> Z -> list (list Color) -> list (list Color);
  paint_px : Unit -> IRect -> list (list Color) -> list (list Color);
  polygon_px_shape : forall c pts w b, shape (polygon_px c pts w b) = shape b;
  paint_px_shape : forall u q b, shape (paint_px u q b) = shape b
}.

Context `{DrawingLibrary}.

Record Surface : Type := mkSurface {
  colorkey : option Color;
  pixels : list (list Color);
  calls : list Call
}.

Definition get_colorkey (s : Surface) : option Color := colorkey s.

Definition set_colorkey (c : Color) (s : Surface) : Surface :=
  mkSurface (Some c) (pixels s) (calls s ++ [CallSetColorkey c]).

Definition fill (c : Color) (s : Surface) : Surface :=
  mkSurface (colorkey s) (fill_px c (pixels s)) (calls s ++ [CallFill c]).

Definition draw_polygon (c : Color) (points : list (R * R)) (line_width : Z)
    (s : Surface) : Surface :=
  mkSurface (colorkey s) (polygon_px c points line_width (pixels s))
            (calls s ++ [CallPolygon c points line_width]).

(** [Render.__init__]: a surface of [( self.width, self.height )], cut to
    integers, black and without colorkey. *)
Definition Render_init (m : Map) (radius : R) : Surface :=
  mkSurface None
    (replicate (Z.to_nat (trunc (height m radius)))
       (replicate (Z.to_nat (trunc (width m radius))) (RGB 0 0 0)))
    [].

(** [self.subsurface( rect )]: the view of the pixels of the rectangle,
    named by the rectangle. *)
Definition subsurface (q : IRect) (s : Surface) : outcome IRect :=
  if inside_surface q (pixels s) then Returned q else Raised ValueError.

(** [Render.get_surface], the method. *)
Definition Render_get_surface (radius : R) (cell : Z * Z) (s : Surface) :
    outcome IRect :=
  subsurface (pygame_Rect (get_surface radius cell)) s.

Definition unit_paint (u : Unit) (q : IRect) (s : Surface) : Surface :=
  mkSurface (colorkey s) (paint_px u q (pixels s)) (calls s ++ [CallPaint u q]).

(** *** The renderers *)

Definition GRID_COLOR : Color := RGB 50 50 50.

(** [Render.draw], the base method. *)
Definition Render_draw (s : Surface) : Surface :=
  match get_colorkey s with
  | Some color => fill color s
  | None =>
      let magenta := RGB 255 0 255 in
      let s := set_colorkey magenta s in
      fill magenta s
  end.

(** The loop of [RenderUnits.draw] over [units.items()]: the surface it
    leaves, and the exception that ended it, if one did. *)
Fixpoint paint_units (radius : R) (items : list ((Z * Z) * Unit)) (s : Surface) :
    Surface * option exn :=
  match items with
  | [] => (s, None)
  | (position, unit) :: items =>
      match Render_get_surface radius position s with
      | Raised e => (s, Some e)
      | Returned surface => paint_units radius items (unit_paint unit surface s)
      end
  end.

(** [RenderUnits.draw] *)
Definition RenderUnits_draw_run (m : Map) (radius : R) (s : Surface) :
    Surface * option exn :=
  let s := Render_draw s in
  let units := positions m in
  paint_units radius (map_to_list units) s.

(** The surface after [RenderUnits.draw], and what the call raised. *)
Definition RenderUnits_draw (m : Map) (radius : R) (s : Surface) : Surface :=
  fst (RenderUnits_draw_run m radius s).

Definition RenderUnits_draw_raises (m : Map) (radius : R) (s : Surface) :
    option exn :=
  snd (RenderUnits_draw_run m radius s).

(** The point list of one cell in [RenderGrid.draw]. *)
Definition cell_points (radius : R) : list (R * R) :=
  [ (0.5 * radius, 0);
    (1.5 * radius, 0);
    (2 * radius, SQRT3 / 2 * radius);
    (1.5 * radius, SQRT3 * radius);
    (0.5 * radius, SQRT3 * radius);
    (0, SQRT3 / 2 * radius) ].

(** [RenderGrid.draw] *)
Definition RenderGrid_draw (m : Map) (radius : R) (s : Surface) : Surface :=
  let s := Render_draw s in
  let cell := cell_points radius in
  foldl
    (fun s col =>
       let offset := if negb (col mod 2 =? 0)%Z then radius * SQRT3 / 2 else 0 in
       foldl
         (fun s row =>
            let top := offset + SQRT3 * IZR row * radius in
            let left := 1.5 * IZR col * radius in
            let points := (fun '(x, y) => (x + left, y + top)) <$> cell in
            draw_polygon GRID_COLOR points 1 s)
         s (py_range (rows m)))
    s (py_range (cols m)).

(** The point list of one cell moved to the top-left corner of a
    rectangle. *)
Definition outline_in (radius : R) (q : Rect) : list (R * R) :=
  (fun '(x, y) => (x + rect_left q, y + rect_top q)) <$> cell_points radius.

(** *** Notions used to state what the renderers do *)

(** The colour the base [draw] fills with. *)
Definition fill_color (s : Surface) : Color :=
  match colorkey s with
  | Some color => color
  | None => RGB 255 0 255
  end.

(** The calls of the base [draw]. *)
Definition base_calls (s : Surface) : list Call :=
  match colorkey s with
  | Some color => [CallFill color]
  | None => [CallSetColorkey (RGB 255 0 255); CallFill (RGB 255 0 255)]
  end.

(** The cells of the grid, in the order of the two loops. *)
Definition grid_cells (m : Map) : list (Z * Z) :=
  col ← py_range (cols m); (fun row => (row, col)) <$> py_range (rows m).

(** The cells [RenderGrid.draw] outlines, as [get_surface] numbers them. *)
Definition axial_cells (m : Map) : list (Z * Z) :=
  (fun '(row, col) => (row + math_ceil (IZR col / 2), col)%Z) <$> grid_cells m.

(** Two surfaces with the same colorkey and the same pixels. *)
Definition same_canvas (s1 s2 : Surface) : Prop :=
  colorkey s1 = colorkey s2 /\ pixels s1 = pixels s2.

(** A drawing step: it reads nothing but the canvas and keeps the colorkey
    and the dimensions of the buffer. *)
Definition canvas_step {A : Type} (f : Surface -> A -> Surface) : Prop :=
  forall a,
    (forall s1 s2, same_canvas s1 s2 -> same_canvas (f s1 a) (f s2 a)) /\
    (forall s, colorkey (f s a) = colorkey s /\
               shape (pixels (f s a)) = shape (pixels s)).

End Render.

Arguments Map : clear implicits.
Arguments Call : clear implicits.
Arguments Surface : clear implicits.
Arguments DrawingLibrary : clear implicits.

(** ** Concrete maps *)

(** A [valid_cell] for the examples ([Map.py] is not part of the source):
    it accepts the cells whose outline [RenderGrid.draw] draws, column
    [col] of [0 <= col < cols] with its rows counted from [ceil(col/2)].
    The units of the [__main__] block stand on such cells. *)
Definition example_valid_cell (nrows ncols : Z) (cell : Z * Z) : bool :=
  let '(row, col) := cell in
  (0 <=? col)%Z && (col <? ncols)%Z &&
  ((col + 1) / 2 <=? row)%Z && (row <? (col + 1) / 2 + nrows)%Z.

(** The units of the examples: a unit is the colour it paints. *)
Definition grid_map (nrows ncols : Z) (units : gmap (Z * Z) Color) : Map Color :=
  mkMap nrows ncols (example_valid_cell nrows ncols) units.

(** The map of the [__main__] block: [Map( ( 5, 5 ) )] with four units. *)
Definition demo_positions : gmap (Z * Z) Color :=
  <[(5, 4)%Z := RGB 200 200 200]>
    (<[(5, 3)%Z := RGB 200 200 200]>
      (<[(3, 2)%Z := RGB 200 200 200]>
        (<[(0, 0)%Z := RGB 200 200 200]> ∅))).

Definition demo_map : Map Color := grid_map 5 5 demo_positions.



(** A small rasteriser for the examples: a polygon marks its vertices,
    a unit marks the centre of its rectangle with its colour. *)
Definition set_pixel (x y : Z) (c : Color) (b : list (list Color)) : list (list Color) :=
  if ((0 <=? x) && (0 <=? y))%Z
  then alter (fun line : list Color => <[Z.to_nat x := c]> line) (Z.to_nat y) b
  else b.

Definition dots_polygon_px (c : Color) (points : list (R * R)) (line_width : Z)
    (b : list (list Color)) : list (list Color) :=
  foldr (fun '(x, y) b => set_pixel (math_floor x) (math_floor y) c b) b points.

Definition dot_paint_px (u : Color) (q : IRect) (b : list (list Color)) :
    list (list Color) :=
  set_pixel (irect_x q + irect_w q / 2) (irect_y q + irect_h q / 2) u b.

(** A fresh surface of 4 x 4 black pixels without colorkey. *)
Definition blank_surface : Surface Color :=
  mkSurface None (replicate 4 (replicate 4 (RGB 0 0 0))) [].

(** ** Arithmetic of [math.floor], [math.ceil] and [SQRT3] *)

Lemma math_floor_spec (z : Z) (x : R) :
  IZR z <= x < IZR z + 1 -> math_floor x = z.
Proof.
  intros [Hlo Hhi]. unfold math_floor. symmetry.
  apply Int_part_spec. lra.
Qed.

Lemma math_floor_bounds (x : R) :
  IZR (math_floor x) <= x < IZR (math_floor x) + 1.
Proof.
  unfold math_floor. destruct (base_Int_part x) as [Hlo Hhi]. lra.
Qed.

Lemma math_ceil_spec (z : Z) (x : R) :
  IZR z - 1 < x <= IZR z -> math_ceil x = z.
Proof.
  intros [Hlo Hhi]. unfold math_ceil.
  assert (E : Int_part (- x) = (- z)%Z).
  { symmetry. apply Int_part_spec. rewrite opp_IZR. lra. }
  rewrite E. lia.
Qed.

Lemma math_floor_IZR (z : Z) : math_floor (IZR z) = z.
Proof. apply math_floor_spec. lra. Qed.

(** Flooring a quotient by a positive divisor. *)
Lemma math_floor_div (k : Z) (a d : R) :
  0 < d -> IZR k * d <= a < (IZR k + 1) * d -> math_floor (a / d) = k.
Proof.
  intros Hd [Hlo Hhi]. apply math_floor_spec. split.
  - apply Rmult_le_reg_r with d; [exact Hd|].
    unfold Rdiv. rewrite Rmult_assoc, Rinv_l by lra. lra.
  - apply Rmult_lt_reg_r with d; [exact Hd|].
    unfold Rdiv. rewrite Rmult_assoc, Rinv_l by lra. lra.
Qed.

Lemma half_parity (n : Z) :
  (n mod 2 = 0 /\ n = 2 * (n / 2))%Z \/ (n mod 2 = 1 /\ n = 2 * (n / 2) + 1)%Z.
Proof.
  pose proof (Z.div_mod n 2 ltac:(lia)) as E.
  pose proof (Z.mod_pos_bound n 2 ltac:(lia)) as B.
  lia.
Qed.

Lemma math_floor_half (n : Z) : math_floor (IZR n / 2) = (n / 2)%Z.
Proof.
  apply math_floor_spec.
  destruct (half_parity n) as [[_ E] | [_ E]];
    rewrite E at 2; rewrite E at 3;
    rewrite ?plus_IZR, mult_IZR; lra.
Qed.

Lemma math_ceil_half (n : Z) : math_ceil (IZR n / 2) = ((n + 1) / 2)%Z.
Proof.
  apply math_ceil_spec.
  destruct (half_parity n) as [[_ E] | [_ E]].
  - replace ((n + 1) / 2)%Z with (n / 2)%Z
      by (rewrite E at 2; rewrite Z.mul_comm, Z.div_add_l by lia;
          change (1 / 2)%Z with 0%Z; lia).
    rewrite E at 2; rewrite E at 3. rewrite mult_IZR. lra.
  - replace ((n + 1) / 2)%Z with (n / 2 + 1)%Z
      by (rewrite E at 2;
          replace (2 * (n / 2) + 1 + 1)%Z with ((n / 2 + 1) * 2)%Z by lia;
          rewrite Z.div_mul by lia; reflexivity).
    rewrite E at 2; rewrite E at 3. rewrite !plus_IZR, mult_IZR. lra.
Qed.

Lemma SQRT3_sqr : SQRT3 * SQRT3 = 3.
Proof. unfold SQRT3. apply sqrt_sqrt. lra. Qed.

Lemma SQRT3_pos : 0 < SQRT3.
Proof. unfold SQRT3. apply sqrt_lt_R0. lra. Qed.

Lemma SQRT3_bounds : 1.7320508 < SQRT3 < 1.7320509.
Proof.
  pose proof SQRT3_sqr as Hs. pose proof SQRT3_pos as Hp.
  split.
  - destruct (Rlt_dec 1.7320508 SQRT3) as [|Hn]; [assumption|]. nra.
  - destruct (Rlt_dec SQRT3 1.7320509) as [|Hn]; [assumption|]. nra.
Qed.

Lemma Rlt_b_true (a b : R) : Rlt_b a b = true <-> a < b.
Proof. unfold Rlt_b. destruct (Rlt_dec a b); split; intros; congruence || lra. Qed.

Lemma Rlt_b_false (a b : R) : Rlt_b a b = false <-> b <= a.
Proof. unfold Rlt_b. destruct (Rlt_dec a b); split; intros; congruence || lra. Qed.

Lemma py_div_pos (a b : R) : 0 < b -> py_div a b = Returned (a / b).
Proof.
  intros Hb. unfold py_div. destruct (Req_dec_T b 0); [lra | reflexivity].
Qed.

(** Goals on quotients and remainders by a constant. *)
Ltac zdiv := Z.to_euclidean_division_equations; lia.

(** The integer part of a float that is not negative. *)
Lemma trunc_nonneg (x : R) : 0 <= x -> trunc x = math_floor x.
Proof. intros Hx. unfold trunc. destruct (Rlt_dec x 0); [lra | reflexivity]. Qed.

Lemma trunc_bounds (x : R) :
  0 <= x -> (0 <= trunc x)%Z /\ IZR (trunc x) <= x < IZR (trunc x) + 1.
Proof.
  intros Hx. rewrite trunc_nonneg by exact Hx.
  pose proof (math_floor_bounds x) as [Hlo Hhi]. split; [|lra].
  apply le_IZR. apply Rnot_lt_le. intros Hneg.
  assert (IZR (math_floor x) + 1 <= 0)
    by (rewrite <- (plus_IZR _ 1); apply IZR_le; apply lt_IZR in Hneg; lia).
  lra.
Qed.

Lemma trunc_IZR (z : Z) : trunc (IZR z) = z.
Proof.
  unfold trunc. destruct (Rlt_dec (IZR z) 0).
  - apply math_ceil_spec. lra.
  - apply math_floor_IZR.
Qed.

(** An integer below a float is below its integer part. *)
Lemma trunc_above (z : Z) (x : R) : 0 <= x -> IZR z <= x -> (z <= trunc x)%Z.
Proof.
  intros Hx Hz. destruct (trunc_bounds x Hx) as [_ [_ Hhi]].
  assert (IZR z < IZR (trunc x + 1)) by (rewrite plus_IZR; lra).
  apply lt_IZR in H. lia.
Qed.

(** Case analysis on every float comparison of the goal. *)
Ltac split_Rlt_b :=
  unfold Rgt_b;
  repeat match goal with
         | |- context [Rlt_b ?a ?b] =>
             let C := fresh "C" in
             destruct (Rlt_b a b) eqn:C;
             [apply Rlt_b_true in C | apply Rlt_b_false in C]
         end;
  cbn [andb].

(** ** The cell lookup *)

Section Lookup.

Context {Unit : Type}.
Implicit Types (m : Map Unit) (radius x y : R).

Lemma even_mod2 (n : Z) : (n mod 2 =? 0)%Z = Z.even n.
Proof.
  rewrite <- Z.negb_odd, <- Z.bit0_mod, Z.bit0_odd.
  destruct (Z.odd n); reflexivity.
Qed.

(** With a positive radius no division raises, and the result is the one
    the specification describes. *)
Lemma get_cell_resolve_eq radius x y :
  0 < radius ->
  get_cell_resolve radius (x, y) = Returned (PixelToCell_resolve radius x y).
Proof.
  intros Hr. pose proof SQRT3_pos as Hs.
  unfold get_cell_resolve, PixelToCell_resolve.
  rewrite !py_div_pos by nra. cbn [obind]. f_equal.
  unfold math_floor. rewrite even_mod2.
  set (col0 := Int_part (x / (1.5 * radius))).
  set (row0 := Int_part (y / (SQRT3 * radius))).
  set (lx := x - IZR col0 * 1.5 * radius).
  set (ly := y - IZR row0 * SQRT3 * radius).
  unfold Rgt_b, Rlt_b.
  destruct (Z.even col0).
  - repeat (destruct (Rlt_dec _ _)); cbn [andb];
      repeat case_decide; try reflexivity; exfalso; unfold Rgt in *; tauto.
  - repeat (destruct (Rlt_dec _ _)); cbn [andb];
      repeat case_decide; try reflexivity; exfalso; tauto.
Qed.

(** The centre of the rectangle of a cell resolves to that cell. *)
Lemma center_resolves radius (row col : Z) :
  0 < radius ->
  get_cell_resolve radius (rect_center (get_surface radius (row, col)))
  = Returned (row, col).
Proof.
  intros Hr. pose proof SQRT3_pos as Hs.
  assert (Hh : 0 < SQRT3 * radius) by nra.
  unfold get_surface, rect_center.
  cbn [rect_left rect_top rect_width rect_height].
  unfold get_cell_resolve. rewrite !py_div_pos by nra. cbn [obind].
  rewrite math_ceil_half.
  assert (Ecol : math_floor ((1.5 * radius * IZR col + 2 * radius / 2)
                             / (1.5 * radius)) = col).
  { apply math_floor_div; nra. }
  rewrite Ecol, even_mod2.
  replace ((IZR col + 1) / 2) with (IZR (col + 1) / 2)
    by (rewrite plus_IZR; reflexivity).
  rewrite math_floor_half.
  set (c := ((col + 1) / 2)%Z).
  destruct (half_parity col) as [[Hm E] | [Hm E]].
  - (* even column: the centre is at local offset (radius, height / 2) *)
    rewrite Hm. cbn [Z.eqb].
    assert (Ev : Z.even col = true) by (rewrite <- even_mod2, Hm; reflexivity).
    rewrite Ev.
    assert (Erow : math_floor (((IZR row - IZR c) * (radius * SQRT3) + 0
                                + radius * SQRT3 / 2) / (SQRT3 * radius))
                   = (row - c)%Z).
    { apply math_floor_div; [exact Hh|]. rewrite minus_IZR. nra. }
    rewrite Erow, minus_IZR.
    split_Rlt_b; first [ repeat f_equal; lia | exfalso; nra ].
  - (* odd column: the centre is at local offset (radius, 0), one bucket down *)
    rewrite Hm. change (1 =? 1)%Z with true. cbv iota.
    assert (Ev : Z.even col = false) by (rewrite <- even_mod2, Hm; reflexivity).
    rewrite Ev.
    assert (Erow : math_floor (((IZR row - IZR c) * (radius * SQRT3)
                                + radius * SQRT3 / 2 + radius * SQRT3 / 2)
                               / (SQRT3 * radius))
                   = (row - c + 1)%Z).
    { apply math_floor_div; [exact Hh|]. rewrite plus_IZR, minus_IZR. nra. }
    rewrite Erow, plus_IZR, minus_IZR.
    split_Rlt_b; first [ repeat f_equal; lia | exfalso; nra ].
Qed.

(** C1: for a positive radius and a cell that [valid_cell] accepts,
    [get_cell] at the centre of the rectangle [get_surface] computes for
    the cell returns that cell. *)
Theorem get_cell_get_surface_center m radius (row col : Z) :
  0 < radius ->
  valid_cell m (row, col) = true ->
  get_cell m radius (rect_center (get_surface radius (row, col)))
  = Returned (Some (row, col)).
Proof.
  intros Hr Hv. unfold get_cell.
  rewrite center_resolves by exact Hr. cbn [obind].
  rewrite Hv. reflexivity.
Qed.

(** C6: radius 32, a 5 x 5 map whose [valid_cell] rejects negative
    coordinates, pixel (0, 0): the bucket is column 0, which is even,
    the local offsets are 0 and satisfy the three tests of the upper-left
    branch, the cell resolved is (-1, -1), and the result is [None]. *)
Theorem get_cell_origin m :
  rows m = 5%Z -> cols m = 5%Z ->
  (forall row col, (row < 0 \/ col < 0)%Z -> valid_cell m (row, col) = false) ->
  let radius := 32 in
  let col0 := math_floor (0 / (1.5 * radius)) in
  let row0 := math_floor (0 / (SQRT3 * radius)) in
  let lx := 0 - IZR col0 * 1.5 * radius in
  let ly := 0 - IZR row0 * SQRT3 * radius in
  (col0 = 0%Z /\ (col0 mod 2 =? 0)%Z = true) /\
  (lx = 0 /\ ly = 0) /\
  (ly < SQRT3 * radius / 2 /\ lx < 0.5 * radius /\ ly < SQRT3 * radius / 2 - lx) /\
  get_cell_resolve radius (0, 0) = Returned (-1, -1)%Z /\
  get_cell m radius (0, 0) = Returned None.
Proof.
  intros _ _ Hneg radius col0 row0 lx ly. pose proof SQRT3_pos as Hs.
  assert (Ec : col0 = 0%Z).
  { unfold col0, radius. apply math_floor_div; lra. }
  assert (Er : row0 = 0%Z).
  { unfold row0, radius. apply math_floor_div; lra. }
  assert (Ex : lx = 0) by (unfold lx; rewrite Ec; lra).
  assert (Ey : ly = 0) by (unfold ly; rewrite Er; lra).
  assert (Eres : get_cell_resolve radius (0, 0) = Returned (-1, -1)%Z).
  { unfold get_cell_resolve. unfold radius at 1 2.
    rewrite !py_div_pos by lra. cbn [obind].
    fold radius. fold col0. fold row0. fold lx. fold ly.
    rewrite Ec, Ex, Ey, Er.
    replace ((IZR 0 + 1) / 2) with (IZR 1 / 2) by lra.
    rewrite math_floor_half.
    change (0 mod 2 =? 0)%Z with true. cbv iota.
    change (0 + 1 / 2 - 1)%Z with (-1)%Z. change (0 - 1)%Z with (-1)%Z.
    unfold radius.
    split_Rlt_b; first [ reflexivity | exfalso; lra ]. }
  repeat split.
  - exact Ec.
  - rewrite Ec. reflexivity.
  - exact Ex.
  - exact Ey.
  - rewrite Ey. unfold radius. lra.
  - rewrite Ex. unfold radius. lra.
  - rewrite Ex, Ey. unfold radius. lra.
  - exact Eres.
  - unfold get_cell. rewrite Eres. cbn [obind].
    rewrite Hneg by lia. reflexivity.
Qed.

(** C2: for a positive radius, [get_cell] computes exactly what the
    documented algorithm computes: the coarse bucket, the local offsets,
    the axial correction of the row, the boundary refinement of the even
    and of the odd column, and the validity check. *)
Theorem get_cell_documented_algorithm m radius x y :
  0 < radius ->
  get_cell_resolve radius (x, y) = Returned (PixelToCell_resolve radius x y) /\
  get_cell m radius (x, y) = Returned (PixelToCell m radius x y).
Proof.
  intros Hr. split.
  - apply get_cell_resolve_eq, Hr.
  - unfold get_cell, PixelToCell.
    rewrite get_cell_resolve_eq by exact Hr. reflexivity.
Qed.

(** C4: for a positive radius [get_cell] raises nothing, whatever the
    pixel: it returns the resolved cell when [valid_cell] accepts it and
    [None] when it does not. *)
Theorem get_cell_never_raises m radius x y :
  0 < radius ->
  exists cell,
    get_cell_resolve radius (x, y) = Returned cell /\
    get_cell m radius (x, y) =
      Returned (if valid_cell m cell then Some cell else None).
Proof.
  intros Hr. exists (PixelToCell_resolve radius x y). split.
  - apply get_cell_resolve_eq, Hr.
  - unfold get_cell. rewrite get_cell_resolve_eq by exact Hr. reflexivity.
Qed.

(** C10: the cell resolved before the validity check is the coarse bucket
    or its neighbour one column to the left and one row up: the column is
    [col0] or [col0 - 1], the row is [row1] or [row1 - 1]. *)
Theorem get_cell_one_step radius x y :
  0 < radius ->
  let col0 := math_floor (x / (1.5 * radius)) in
  let row1 := (math_floor (y / (SQRT3 * radius))
               + math_floor ((IZR col0 + 1) / 2))%Z in
  exists row col,
    get_cell_resolve radius (x, y) = Returned (row, col) /\
    (col = col0 \/ col = (col0 - 1)%Z) /\
    (row = row1 \/ row = (row1 - 1)%Z).
Proof.
  intros Hr col0 row1. pose proof SQRT3_pos as Hs.
  unfold get_cell_resolve. rewrite !py_div_pos by nra. cbn [obind].
  fold col0. fold row1.
  repeat match goal with
         | |- context [if ?b then _ else _] => destruct b
         end; eauto 7.
Qed.

End Lookup.

(** ** The canvas *)

Section Canvas.

Context {Unit : Type}.
Implicit Types (m : Map Unit) (radius : R).

(** The width, with the two roundings of [cols / 2.0] as integer
    quotients. *)
Lemma width_eq m radius :
  width m radius =
    IZR ((cols m + 1) / 2) * 2 * radius + IZR (cols m / 2) * radius + 1.
Proof. unfold width. rewrite math_ceil_half, math_floor_half. reflexivity. Qed.

(** C5: the dimensions of the canvas are
    [ceil(cols/2) * 2 * radius + floor(cols/2) * radius + 1] by
    [(rows + 0.5) * radius * sqrt 3 + 1]; for 5 rows, 5 columns and radius
    32 the width is 257 and the height lies between 305.84 and 305.85. *)
Theorem canvas_dimensions m radius :
  (width m radius =
     IZR ((cols m + 1) / 2) * 2 * radius + IZR (cols m / 2) * radius + 1 /\
   height m radius = (IZR (rows m) + 0.5) * radius * sqrt 3 + 1) /\
  (rows m = 5%Z -> cols m = 5%Z ->
   width m 32 = 257 /\ 305.84 < height m 32 < 305.85).
Proof.
  split; [split|].
  - apply width_eq.
  - reflexivity.
  - intros Hrows Hcols. split.
    + rewrite width_eq, Hcols.
      change ((5 + 1) / 2)%Z with 3%Z. change (5 / 2)%Z with 2%Z. lra.
    + unfold height. rewrite Hrows. pose proof SQRT3_bounds. lra.
Qed.

(** The dimensions of the surface [Render.__init__] makes. *)
Lemma Render_init_size m radius :
  1 <= height m radius -> 0 <= width m radius ->
  surf_w (pixels (Render_init m radius)) = trunc (width m radius) /\
  surf_h (pixels (Render_init m radius)) = trunc (height m radius).
Proof.
  intros Hh Hw. unfold Render_init. cbn [pixels].
  destruct (trunc_bounds (width m radius) Hw) as [Hw0 _].
  assert (Hh1 : (1 <= trunc (height m radius))%Z)
    by (apply (trunc_above 1); lra).
  split.
  - destruct (Z.to_nat (trunc (height m radius))) as [|n] eqn:En; [lia|].
    cbn [replicate surf_w]. rewrite length_replicate. lia.
  - unfold surf_h. rewrite length_replicate. lia.
Qed.

(** A rectangle that ends right of the surface is not inside it. *)
Lemma inside_surface_right (q : IRect) (b : list (list Color)) :
  (surf_w b < irect_x q + irect_w q)%Z -> inside_surface q b = false.
Proof.
  intros Hlt. unfold inside_surface. apply Z.ltb_lt in Hlt. rewrite Hlt.
  rewrite orb_true_r. reflexivity.
Qed.


(** C3, at the input where the code fails it: 2 rows, 2 columns, radius
    32 and the cell (1, 1), which [valid_cell] accepts.  The canvas is 97
    wide, the rectangle of the cell ends at x = 112, it is not inside the
    canvas, and [get_surface] raises [ValueError] on the surface of the
    renderer. *)
Theorem get_surface_outside_canvas m :
  rows m = 2%Z -> cols m = 2%Z ->
  valid_cell m (1, 1)%Z = true ->
  width m 32 = 97 /\
  rect_right (get_surface 32 (1, 1)%Z) = 112 /\
  ~ rect_inside (get_surface 32 (1, 1)%Z) (width m 32) (height m 32) /\
  Render_get_surface 32 (1, 1)%Z (Render_init m 32) = Raised ValueError.
Proof.
  intros Hrows Hcols _. pose proof SQRT3_bounds as Hs.
  assert (W : width m 32 = 97).
  { rewrite width_eq, Hcols.
    change ((2 + 1) / 2)%Z with 1%Z. change (2 / 2)%Z with 1%Z. lra. }
  assert (Rt : rect_right (get_surface 32 (1, 1)%Z) = 112).
  { unfold rect_right, get_surface. cbn [rect_left rect_width]. lra. }
  split; [exact W|]. split; [exact Rt|]. split.
  - intros (_ & _ & Hright & _). rewrite W, Rt in Hright. lra.
  - unfold Render_get_surface, subsurface.
    rewrite inside_surface_right; [reflexivity|].
    destruct (Render_init_size m 32) as [Ew _].
    { unfold height. rewrite Hrows. lra. }
    { rewrite W. lra. }
    rewrite Ew, W. change 97 with (IZR 97). rewrite trunc_IZR.
    unfold pygame_Rect, get_surface.
    cbn [irect_x irect_w rect_left rect_width].
    replace (1.5 * 32 * IZR 1) with (IZR 48) by lra.
    replace (2 * 32) with (IZR 64) by lra.
    rewrite !trunc_IZR. lia.
Qed.

End Canvas.

(** ** The renderers *)

Section Drawing.

Context {Unit : Type} `{DrawingLibrary Unit}.
Implicit Types (m : Map Unit) (radius : R) (s : Surface Unit).

Lemma Render_draw_calls s : calls (Render_draw s) = calls s ++ base_calls s.
Proof.
  unfold Render_draw, base_calls, get_colorkey.
  destruct (colorkey s); cbn; [reflexivity|].
  rewrite <- app_assoc. reflexivity.
Qed.

Lemma Render_draw_pixels s :
  pixels (Render_draw s) = fill_px (fill_color s) (pixels s).
Proof.
  unfold Render_draw, fill_color, get_colorkey. destruct (colorkey s); reflexivity.
Qed.

Lemma Render_draw_colorkey s : colorkey (Render_draw s) = Some (fill_color s).
Proof.
  unfold Render_draw, fill_color, get_colorkey.
  destruct (colorkey s) eqn:E; cbn; [exact E | reflexivity].
Qed.

(** A loop whose body appends calls appends the calls of every turn. *)
Lemma foldl_calls {A : Type} (f : Surface Unit -> A -> Surface Unit)
    (g : A -> list (Call Unit)) (l : list A) s :
  (forall s a, calls (f s a) = calls s ++ g a) ->
  calls (foldl f s l) = calls s ++ (l ≫= g).
Proof.
  intros Hf. revert s. induction l as [|a l IH]; intros s; cbn [foldl].
  - cbn. rewrite app_nil_r. reflexivity.
  - rewrite IH, Hf, bind_cons, app_assoc. reflexivity.
Qed.

Lemma bind_singleton {A B : Type} (g : A -> B) (l : list A) :
  l ≫= (fun a => [g a]) = g <$> l.
Proof.
  induction l as [|a l IH]; [reflexivity|].
  rewrite bind_cons, fmap_cons, IH. reflexivity.
Qed.

(** The points of a cell in [RenderGrid.draw] are those of [hexagon_at]. *)
Lemma grid_points radius (row col : Z) :
  (fun '(x, y) =>
     (x + 1.5 * IZR col * radius,
      y + ((if negb (col mod 2 =? 0)%Z then radius * SQRT3 / 2 else 0)
           + SQRT3 * IZR row * radius))) <$> cell_points radius
  = hexagon_at radius row col.
Proof.
  unfold hexagon_at, cell_points. rewrite even_mod2, Z.negb_even.
  cbn [fmap list_fmap].
  repeat (apply (f_equal2 cons);
          [apply (f_equal2 pair); destruct (Z.odd col); lra|]).
  reflexivity.
Qed.

Lemma elem_of_grid_cells m (row col : Z) :
  (row, col) ∈ grid_cells m <->
  (0 <= col < cols m)%Z /\ (0 <= row < rows m)%Z.
Proof.
  unfold grid_cells, py_range. rewrite list_elem_of_bind. split.
  - intros (c & Hin & Hc). apply list_elem_of_fmap in Hin as (r & E & Hr).
    inversion E; subst. apply elem_of_seqZ in Hc, Hr. lia.
  - intros [Hc Hr]. exists col. split.
    + apply list_elem_of_fmap. exists row. split; [reflexivity|].
      apply elem_of_seqZ. lia.
    + apply elem_of_seqZ. lia.
Qed.

Lemma NoDup_grid_cells m : NoDup (grid_cells m).
Proof.
  unfold grid_cells, py_range. apply NoDup_bind.
  - intros c1 c2 [r c] _ _ H1 H2.
    apply list_elem_of_fmap in H1 as (r1 & E1 & _).
    apply list_elem_of_fmap in H2 as (r2 & E2 & _).
    congruence.
  - intros c _. apply NoDup_fmap_2; [|apply NoDup_seqZ].
    intros r1 r2 E. congruence.
  - apply NoDup_seqZ.
Qed.

Lemma RenderGrid_draw_calls m radius s :
  calls (RenderGrid_draw m radius s) =
    calls (Render_draw s) ++
    ((fun '(row, col) => CallPolygon GRID_COLOR (hexagon_at radius row col) 1)
       <$> grid_cells m).
Proof.
  unfold RenderGrid_draw.
  rewrite (foldl_calls _
    (fun col => (fun row => CallPolygon GRID_COLOR (hexagon_at radius row col) 1)
                  <$> py_range (rows m))).
  - f_equal. unfold grid_cells.
    induction (py_range (cols m)) as [|col l IH]; [reflexivity|].
    rewrite !bind_cons, fmap_app, IH. f_equal.
    rewrite <- list_fmap_compose. reflexivity.
  - intros s' col.
    rewrite (foldl_calls _
      (fun row => [CallPolygon GRID_COLOR (hexagon_at radius row col) 1])).
    + rewrite bind_singleton. reflexivity.
    + intros s'' row. cbn [draw_polygon calls].
      rewrite grid_points. reflexivity.
Qed.

(** C7: [RenderGrid.draw] draws, after the base fill, one polygon of line
    width 1 in the grid colour for every [(row, col)] with
    [0 <= col < cols] and [0 <= row < rows], and nothing else; the polygon
    is the cell outline at [left = 1.5 * radius * col] and
    [top = sqrt 3 * radius * row], plus [sqrt 3 * radius / 2] exactly when
    [col] is odd. *)
Theorem RenderGrid_draw_paints_grid m radius s :
  exists cells : list (Z * Z),
    NoDup cells /\
    (forall row col,
       (row, col) ∈ cells <-> (0 <= col < cols m)%Z /\ (0 <= row < rows m)%Z) /\
    calls (RenderGrid_draw m radius s) =
      calls s ++ base_calls s ++
      ((fun '(row, col) => CallPolygon GRID_COLOR (hexagon_at radius row col) 1)
         <$> cells).
Proof.
  exists (grid_cells m). split; [apply NoDup_grid_cells|]. split.
  - intros row col. apply elem_of_grid_cells.
  - rewrite RenderGrid_draw_calls, Render_draw_calls, app_assoc. reflexivity.
Qed.

Lemma fill_px_shape c b : shape (fill_px c b) = shape b.
Proof.
  unfold shape, fill_px. rewrite <- list_fmap_compose.
  apply list_fmap_ext. intros _ line _. cbn. apply length_fmap.
Qed.

(** The test of [subsurface] looks at the dimensions of the buffer only. *)
Lemma inside_surface_shape (q : IRect) (b1 b2 : list (list Color)) :
  shape b1 = shape b2 -> inside_surface q b1 = inside_surface q b2.
Proof.
  intros E. unfold inside_surface.
  assert (Ew : surf_w b1 = surf_w b2).
  { destruct b1 as [|l1 b1], b2 as [|l2 b2]; try discriminate; [reflexivity|].
    unfold shape in E. rewrite !fmap_cons in E. injection E as El _.
    cbn [surf_w]. rewrite El. reflexivity. }
  assert (Eh : surf_h b1 = surf_h b2).
  { unfold surf_h. rewrite <- (length_fmap length b1), <- (length_fmap length b2).
    fold (shape b1). fold (shape b2). rewrite E. reflexivity. }
  rewrite Ew, Eh. reflexivity.
Qed.

(** The loop of [RenderUnits.draw] paints the items whose rectangle is
    inside the surface, up to the first one whose rectangle is not. *)
Lemma paint_units_split radius (items : list ((Z * Z) * Unit)) s
    (b : list (list Color)) :
  shape (pixels s) = shape b ->
  exists painted skipped : list ((Z * Z) * Unit),
    items = painted ++ skipped /\
    Forall (fun '(position, _) =>
              inside_surface (pygame_Rect (get_surface radius position)) b = true)
           painted /\
    match skipped with
    | [] => snd (paint_units radius items s) = None
    | (position, _) :: _ =>
        inside_surface (pygame_Rect (get_surface radius position)) b = false /\
        snd (paint_units radius items s) = Some ValueError
    end /\
    calls (fst (paint_units radius items s)) =
      calls s ++
      ((fun '(position, unit) =>
          CallPaint unit (pygame_Rect (get_surface radius position)))
         <$> painted) /\
    pixels (fst (paint_units radius items s)) =
      foldl (fun b '(position, unit) =>
               paint_px unit (pygame_Rect (get_surface radius position)) b)
            (pixels s) painted.
Proof.
  revert s. induction items as [|[position unit] items IH]; intros s Hshape.
  - exists [], []. cbn. rewrite app_nil_r. repeat split. constructor.
  - cbn [paint_units]. unfold Render_get_surface, subsurface.
    destruct (inside_surface (pygame_Rect (get_surface radius position)) (pixels s))
      eqn:Hin.
    + destruct (IH (unit_paint unit (pygame_Rect (get_surface radius position)) s))
        as (painted & skipped & Eitems & Hall & Hskip & Hcalls & Hpixels).
      { cbn [unit_paint pixels]. rewrite paint_px_shape. exact Hshape. }
      exists ((position, unit) :: painted), skipped.
      split; [rewrite Eitems; reflexivity|].
      split.
      { constructor; [|exact Hall].
        rewrite <- (inside_surface_shape _ _ _ Hshape). exact Hin. }
      split; [exact Hskip|]. split.
      * rewrite Hcalls. cbn [unit_paint calls]. rewrite fmap_cons, <- app_assoc.
        reflexivity.
      * rewrite Hpixels. reflexivity.
    + exists [], ((position, unit) :: items).
      split; [reflexivity|]. split; [constructor|]. split.
      * split; [|reflexivity].
        rewrite <- (inside_surface_shape _ _ _ Hshape). exact Hin.
      * cbn. rewrite app_nil_r. split; reflexivity.
Qed.


(** *** Drawing twice *)

Lemma foldl_same_canvas {A : Type} (f : Surface Unit -> A -> Surface Unit)
    (l : list A) s1 s2 :
  canvas_step f -> same_canvas s1 s2 ->
  same_canvas (foldl f s1 l) (foldl f s2 l).
Proof.
  intros Hf. revert s1 s2. induction l as [|a l IH]; intros s1 s2 Hs.
  - exact Hs.
  - cbn [foldl]. apply IH. apply (Hf a), Hs.
Qed.

Lemma foldl_keeps {A : Type} (f : Surface Unit -> A -> Surface Unit)
    (l : list A) s :
  canvas_step f ->
  colorkey (foldl f s l) = colorkey s /\
  shape (pixels (foldl f s l)) = shape (pixels s).
Proof.
  intros Hf. revert s. induction l as [|a l IH]; intros s.
  - split; reflexivity.
  - cbn [foldl]. destruct (IH (f s a)) as [Ek Es].
    destruct (Hf a) as [_ Hstep]. destruct (Hstep s) as [Ek' Es'].
    split; congruence.
Qed.

Lemma foldl_canvas_step {A B : Type} (f : B -> Surface Unit -> A -> Surface Unit)
    (l : B -> list A) :
  (forall b, canvas_step (f b)) ->
  canvas_step (fun s b => foldl (f b) s (l b)).
Proof.
  intros Hf b. split.
  - intros s1 s2 Hs. apply foldl_same_canvas; [apply Hf | exact Hs].
  - intros s. apply foldl_keeps, Hf.
Qed.

Lemma draw_polygon_step {A : Type} (points : A -> list (R * R)) c w :
  canvas_step (fun s a => draw_polygon c (points a) w s).
Proof.
  intros a. split.
  - intros s1 s2 [Ek Ep]. split; cbn; [exact Ek | rewrite Ep; reflexivity].
  - intros s. split; [reflexivity | apply polygon_px_shape].
Qed.

Lemma paint_units_same_canvas radius (items : list ((Z * Z) * Unit)) s1 s2 :
  same_canvas s1 s2 ->
  same_canvas (fst (paint_units radius items s1)) (fst (paint_units radius items s2)).
Proof.
  revert s1 s2. induction items as [|[position unit] items IH];
    intros s1 s2 Hs; [exact Hs|].
  cbn [paint_units]. unfold Render_get_surface, subsurface.
  destruct Hs as [Ek Ep]. rewrite Ep.
  destruct (inside_surface _ (pixels s2)).
  - apply IH. split; cbn; [exact Ek | rewrite Ep; reflexivity].
  - split; assumption.
Qed.

Lemma paint_units_keeps radius (items : list ((Z * Z) * Unit)) s :
  colorkey (fst (paint_units radius items s)) = colorkey s /\
  shape (pixels (fst (paint_units radius items s))) = shape (pixels s).
Proof.
  revert s. induction items as [|[position unit] items IH]; intros s.
  - split; reflexivity.
  - cbn [paint_units]. destruct (Render_get_surface radius position s) as [e | q].
    + split; reflexivity.
    + destruct (IH (unit_paint unit q s)) as [Ek Es]. split.
      * rewrite Ek. reflexivity.
      * rewrite Es. cbn. apply paint_px_shape.
Qed.

(** Filling depends on the dimensions of the buffer only. *)
Lemma fill_px_same_shape c b1 b2 :
  shape b1 = shape b2 -> fill_px c b1 = fill_px c b2.
Proof.
  revert b2. induction b1 as [|l1 b1 IH]; intros [|l2 b2] E;
    try discriminate; [reflexivity|].
  unfold shape in E. rewrite !fmap_cons in E. injection E as El Eb.
  unfold fill_px. rewrite !fmap_cons. f_equal.
  - clear -El. revert l2 El. induction l1 as [|x l1 IHl]; intros [|y l2] El;
      try discriminate; [reflexivity|].
    rewrite !fmap_cons. f_equal. apply IHl. cbn in El. congruence.
  - apply IH, Eb.
Qed.

(** The base [draw] on a surface a renderer has drawn leaves what it left
    the first time. *)
Lemma Render_draw_again s s' :
  colorkey s' = colorkey (Render_draw s) ->
  shape (pixels s') = shape (pixels (Render_draw s)) ->
  same_canvas (Render_draw s') (Render_draw s).
Proof.
  intros Ek Es. rewrite Render_draw_colorkey in Ek.
  rewrite Render_draw_pixels, fill_px_shape in Es.
  split.
  - rewrite !Render_draw_colorkey. unfold fill_color. rewrite Ek. reflexivity.
  - rewrite !Render_draw_pixels.
    replace (fill_color s') with (fill_color s)
      by (unfold fill_color at 2; rewrite Ek; reflexivity).
    apply fill_px_same_shape, Es.
Qed.

Lemma RenderGrid_draw_step radius (nrows : Z) :
  canvas_step (fun (s : Surface Unit) (col : Z) =>
    let offset := if negb (col mod 2 =? 0)%Z then radius * SQRT3 / 2 else 0 in
    foldl
      (fun s row =>
         let top := offset + SQRT3 * IZR row * radius in
         let left := 1.5 * IZR col * radius in
         let points := (fun '(x, y) => (x + left, y + top)) <$> cell_points radius in
         draw_polygon GRID_COLOR points 1 s)
      s (py_range nrows)).
Proof.
  apply (foldl_canvas_step
           (fun col s row =>
              draw_polygon GRID_COLOR
                ((fun '(x, y) =>
                    (x + 1.5 * IZR col * radius,
                     y + ((if negb (col mod 2 =? 0)%Z
                           then radius * SQRT3 / 2 else 0)
                          + SQRT3 * IZR row * radius))) <$> cell_points radius)
                1 s)
           (fun _ => py_range nrows)).
  intros col. apply draw_polygon_step.
Qed.

(** C9: a second [draw] of a renderer, on the same map, leaves the pixel
    buffer (and the colorkey) exactly as the first [draw] left them, for
    the grid renderer and for the unit renderer. *)
Theorem draw_twice m radius s :
  (pixels (RenderGrid_draw m radius (RenderGrid_draw m radius s))
   = pixels (RenderGrid_draw m radius s) /\
   colorkey (RenderGrid_draw m radius (RenderGrid_draw m radius s))
   = colorkey (RenderGrid_draw m radius s)) /\
  (pixels (RenderUnits_draw m radius (RenderUnits_draw m radius s))
   = pixels (RenderUnits_draw m radius s) /\
   colorkey (RenderUnits_draw m radius (RenderUnits_draw m radius s))
   = colorkey (RenderUnits_draw m radius s)).
Proof.
  split.
  - set (s1 := RenderGrid_draw m radius s).
    assert (Hs : same_canvas (RenderGrid_draw m radius s1) s1).
    { unfold s1 at 2. unfold RenderGrid_draw.
      apply foldl_same_canvas; [apply RenderGrid_draw_step|].
      apply Render_draw_again; unfold s1, RenderGrid_draw;
        apply foldl_keeps, RenderGrid_draw_step. }
    destruct Hs as [Ek Ep]. split; assumption.
  - set (s1 := RenderUnits_draw m radius s).
    assert (Hs : same_canvas (RenderUnits_draw m radius s1) s1).
    { unfold s1 at 2. unfold RenderUnits_draw, RenderUnits_draw_run.
      apply paint_units_same_canvas.
      apply Render_draw_again; unfold s1, RenderUnits_draw, RenderUnits_draw_run;
        apply paint_units_keeps. }
    destruct Hs as [Ek Ep]. split; assumption.
Qed.

End Drawing.

(** ** Examples on the map of the [__main__] block *)

Lemma set_pixel_shape (x y : Z) (c : Color) (b : list (list Color)) :
  shape (set_pixel x y c b) = shape b.
Proof.
  unfold set_pixel. destruct ((0 <=? x) && (0 <=? y))%Z; [|reflexivity].
  unfold shape.
  rewrite (list_fmap_alter length _ (fun n : nat => n)).
  - apply list_alter_id. reflexivity.
  - apply Forall_forall. intros line _. apply length_insert.
Qed.

Lemma dots_polygon_px_shape c points w b :
  shape (dots_polygon_px c points w b) = shape b.
Proof.
  unfold dots_polygon_px. induction points as [|[x y] points IH]; [reflexivity|].
  cbn [foldr]. rewrite set_pixel_shape. exact IH.
Qed.

Lemma dot_paint_px_shape u q b : shape (dot_paint_px u q b) = shape b.
Proof.
  unfold dot_paint_px. apply set_pixel_shape.
Qed.

#[local] Instance dots_library : DrawingLibrary Color :=
  {| polygon_px := dots_polygon_px;
     paint_px := dot_paint_px;
     polygon_px_shape := dots_polygon_px_shape;
     paint_px_shape := dot_paint_px_shape |}.

Lemma example_valid_cell_negative (nrows ncols row col : Z) :
  (row < 0 \/ col < 0)%Z -> example_valid_cell nrows ncols (row, col) = false.
Proof.
  intros Hneg. unfold example_valid_cell.
  destruct (0 <=? col)%Z eqn:Ec; [|reflexivity].
  destruct (col <? ncols)%Z; [|reflexivity].
  destruct ((col + 1) / 2 <=? row)%Z eqn:Er; [|reflexivity].
  apply Z.leb_le in Ec, Er. exfalso. zdiv.
Qed.

Lemma get_cell_get_surface_center_witness :
  0 < 32 /\
  valid_cell demo_map (2, 1)%Z = true /\
  get_cell demo_map 32 (rect_center (get_surface 32 (2, 1)%Z))
  = Returned (Some (2, 1)%Z).
Proof.
  assert (Hr : 0 < 32) by lra.
  assert (Hv : valid_cell demo_map (2, 1)%Z = true) by reflexivity.
  split; [exact Hr|]. split; [exact Hv|].
  exact (get_cell_get_surface_center demo_map 32 2 1 Hr Hv).
Defined.

Lemma get_cell_documented_algorithm_witness :
  0 < 32 /\
  get_cell_resolve 32 (100, 50) = Returned (PixelToCell_resolve 32 100 50) /\
  get_cell demo_map 32 (100, 50) = Returned (PixelToCell demo_map 32 100 50).
Proof.
  assert (Hr : 0 < 32) by lra.
  split; [exact Hr|].
  exact (get_cell_documented_algorithm demo_map 32 100 50 Hr).
Defined.

Lemma get_cell_never_raises_witness :
  0 < 32 /\
  exists cell,
    get_cell_resolve 32 (-5, 1000) = Returned cell /\
    get_cell demo_map 32 (-5, 1000) =
      Returned (if valid_cell demo_map cell then Some cell else None).
Proof.
  assert (Hr : 0 < 32) by lra.
  split; [exact Hr|].
  exact (get_cell_never_raises demo_map 32 (-5) 1000 Hr).
Defined.

Lemma get_cell_one_step_witness :
  0 < 32 /\
  exists row col,
    get_cell_resolve 32 (100, 50) = Returned (row, col) /\
    (col = math_floor (100 / (1.5 * 32)) \/
     col = (math_floor (100 / (1.5 * 32)) - 1)%Z) /\
    (row = (math_floor (50 / (SQRT3 * 32))
            + math_floor ((IZR (math_floor (100 / (1.5 * 32))) + 1) / 2))%Z \/
     row = (math_floor (50 / (SQRT3 * 32))
            + math_floor ((IZR (math_floor (100 / (1.5 * 32))) + 1) / 2) - 1)%Z).
Proof.
  assert (Hr : 0 < 32) by lra.
  split; [exact Hr|].
  exact (get_cell_one_step 32 100 50 Hr).
Defined.

Lemma get_cell_origin_witness :
  rows demo_map = 5%Z /\ cols demo_map = 5%Z /\
  (forall row col, (row < 0 \/ col < 0)%Z -> valid_cell demo_map (row, col) = false) /\
  get_cell_resolve 32 (0, 0) = Returned (-1, -1)%Z /\
  get_cell demo_map 32 (0, 0) = Returned None.
Proof.
  assert (Hneg : forall row col, (row < 0 \/ col < 0)%Z ->
                                 valid_cell demo_map (row, col) = false)
    by (intros row col; apply example_valid_cell_negative).
  split; [reflexivity|]. split; [reflexivity|]. split; [exact Hneg|].
  exact (proj2 (proj2 (proj2 (get_cell_origin demo_map eq_refl eq_refl Hneg)))).
Defined.

Lemma canvas_dimensions_witness :
  rows demo_map = 5%Z /\ cols demo_map = 5%Z /\
  width demo_map 32 = 257 /\ 305.84 < height demo_map 32 < 305.85.
Proof.
  split; [reflexivity|]. split; [reflexivity|].
  exact (proj2 (canvas_dimensions demo_map 32) eq_refl eq_refl).
Defined.


Lemma RenderGrid_draw_paints_grid_witness :
  exists cells : list (Z * Z),
    NoDup cells /\
    (forall row col,
       (row, col) ∈ cells <->
       (0 <= col < cols demo_map)%Z /\ (0 <= row < rows demo_map)%Z) /\
    calls (RenderGrid_draw demo_map 32 blank_surface) =
      calls blank_surface ++ base_calls blank_surface ++
      ((fun '(row, col) => CallPolygon GRID_COLOR (hexagon_at 32 row col) 1)
         <$> cells).
Proof. exact (RenderGrid_draw_paints_grid demo_map 32 blank_surface). Defined.

Lemma get_surface_outside_canvas_witness :
  rows (grid_map 2 2 ∅) = 2%Z /\ cols (grid_map 2 2 ∅) = 2%Z /\
  valid_cell (grid_map 2 2 ∅) (1, 1)%Z = true /\
  width (grid_map 2 2 ∅) 32 = 97 /\
  rect_right (get_surface 32 (1, 1)%Z) = 112 /\
  ~ rect_inside (get_surface 32 (1, 1)%Z)
      (width (grid_map 2 2 ∅) 32) (height (grid_map 2 2 ∅) 32) /\
  Render_get_surface 32 (1, 1)%Z (Render_init (grid_map 2 2 ∅) 32)
  = Raised ValueError.
Proof.
  split; [reflexivity|]. split; [reflexivity|]. split; [reflexivity|].
  exact (get_surface_outside_canvas (grid_map 2 2 ∅) eq_refl eq_refl eq_refl).
Defined.





Lemma draw_twice_witness :
  pixels (RenderUnits_draw demo_map 32 (RenderUnits_draw demo_map 32 blank_surface))
  = pixels (RenderUnits_draw demo_map 32 blank_surface) /\
  pixels (RenderGrid_draw demo_map 32 (RenderGrid_draw demo_map 32 blank_surface))
  = pixels (RenderGrid_draw demo_map 32 blank_surface).
Proof.
  destruct (draw_twice demo_map 32 blank_surface) as [[Hg _] [Hu _]].
  split; [exact Hu | exact Hg].
Defined.

(** ** Further properties of the cell lookup *)



(** The bounds of a floored quotient, multiplied out. *)
Lemma math_floor_div_bounds (a d : R) :
  0 < d ->
  IZR (math_floor (a / d)) * d <= a < (IZR (math_floor (a / d)) + 1) * d.
Proof.
  intros Hd. destruct (math_floor_bounds (a / d)) as [Hlo Hhi].
  assert (E : a = a / d * d) by (field; lra).
  split.
  - rewrite E at 2. apply Rmult_le_compat_r; lra.
  - rewrite E at 1. apply Rmult_lt_compat_r; lra.
Qed.

Section MoreLookup.

Context {Unit : Type}.
Implicit Types (m : Map Unit) (radius x y : R).


(** X2: a cell [get_cell] returns is one [valid_cell] accepts. *)
Theorem get_cell_only_valid m radius x y (cell : Z * Z) :
  get_cell m radius (x, y) = Returned (Some cell) ->
  valid_cell m cell = true.
Proof.
  unfold get_cell. destruct (get_cell_resolve radius (x, y)) as [e | c];
    cbn [obind]; [discriminate|].
  destruct (valid_cell m c) eqn:Hv; [|discriminate].
  intros E. injection E as ->. exact Hv.
Qed.

(** The pixel lies in the rectangle [get_surface] gives for the cell the
    lookup resolves. *)
Lemma get_cell_resolve_in_rect radius x y (cell : Z * Z) :
  0 < radius ->
  get_cell_resolve radius (x, y) = Returned cell ->
  rect_contains (get_surface radius cell) (x, y).
Proof.
  intros Hr. pose proof SQRT3_pos as Hs.
  assert (Hh : 0 < SQRT3 * radius) by nra.
  assert (Hw : 0 < 1.5 * radius) by lra.
  unfold get_cell_resolve. rewrite !py_div_pos by assumption. cbn [obind].
  pose proof (math_floor_div_bounds x (1.5 * radius) Hw) as Bx.
  pose proof (math_floor_div_bounds y (SQRT3 * radius) Hh) as By.
  set (col0 := math_floor (x / (1.5 * radius))) in *.
  set (row0 := math_floor (y / (SQRT3 * radius))) in *.
  replace ((IZR col0 + 1) / 2) with (IZR (col0 + 1) / 2)
    by (rewrite plus_IZR; reflexivity).
  rewrite math_floor_half.
  set (k := (col0 / 2)%Z).
  destruct (half_parity col0) as [[Hm E] | [Hm E]]; fold k in E; rewrite Hm.
  - change (0 =? 0)%Z with true. cbv iota.
    assert (E1 : ((col0 + 1) / 2 = k)%Z) by (unfold k; zdiv).
    assert (E2 : ((col0 - 1 + 1) / 2 = k)%Z) by (unfold k; zdiv).
    assert (M1 : ((col0 - 1) mod 2 =? 1)%Z = true) by (apply Z.eqb_eq; zdiv).
    assert (M0 : (col0 mod 2 =? 1)%Z = false) by (rewrite Hm; reflexivity).
    assert (Ek : IZR col0 = 2 * IZR k) by (rewrite E at 1; apply mult_IZR).
    rewrite E1.
    split_Rlt_b; intros Heq; injection Heq as <-;
      unfold rect_contains, rect_right, rect_bottom, get_surface;
      cbn [rect_left rect_top rect_width rect_height fst snd];
      rewrite math_ceil_half, ?E1, ?E2, ?M1, ?M0;
      rewrite ?minus_IZR, ?plus_IZR in *; rewrite Ek in *; lra.
  - change (1 =? 0)%Z with false. cbv iota.
    assert (E1 : ((col0 + 1) / 2 = k + 1)%Z) by (unfold k; zdiv).
    assert (E2 : ((col0 - 1 + 1) / 2 = k)%Z) by (unfold k; zdiv).
    assert (M1 : ((col0 - 1) mod 2 =? 1)%Z = false) by (apply Z.eqb_neq; zdiv).
    assert (M0 : (col0 mod 2 =? 1)%Z = true) by (rewrite Hm; reflexivity).
    assert (Ek : IZR col0 = 2 * IZR k + 1)
      by (rewrite E at 1; rewrite plus_IZR, mult_IZR; reflexivity).
    rewrite E1.
    split_Rlt_b; intros Heq; injection Heq as <-;
      unfold rect_contains, rect_right, rect_bottom, get_surface;
      cbn [rect_left rect_top rect_width rect_height fst snd];
      rewrite math_ceil_half, ?E1, ?E2, ?M1, ?M0;
      rewrite ?minus_IZR, ?plus_IZR in *; rewrite Ek in *; lra.
Qed.

(** X4: the lookup seen from the rectangle of a cell, for a positive
    radius and a column of either parity: in the left three quarters of the rectangle of [(row, col)],
    the corner above the line [dy = h/2 - dx] belongs to [(row - 1, col - 1)],
    the corner below the line [dy = h/2 + dx] to [(row, col - 1)], and the
    rest to [(row, col)]. *)
Theorem get_cell_by_rect radius (row col : Z) (dx dy : R) :
  0 < radius ->
  0 <= dx < 1.5 * radius ->
  0 <= dy < SQRT3 * radius ->
  let q := get_surface radius (row, col) in
  get_cell_resolve radius (rect_left q + dx, rect_top q + dy) =
  Returned
    (if decide (dx < 0.5 * radius /\ dy < SQRT3 * radius / 2 - dx)
     then (row - 1, col - 1)%Z
     else if decide (dx < 0.5 * radius /\ dy > SQRT3 * radius / 2 + dx)
     then (row, col - 1)%Z
     else (row, col)).
Proof.
  intros Hr Hdx Hdy q. pose proof SQRT3_pos as Hs.
  assert (Hh : 0 < SQRT3 * radius) by nra.
  unfold q, get_surface. cbn [rect_left rect_top].
  unfold get_cell_resolve. rewrite !py_div_pos by nra. cbn [obind].
  rewrite math_ceil_half.
  assert (Ecol : math_floor ((1.5 * radius * IZR col + dx) / (1.5 * radius)) = col).
  { apply math_floor_div; nra. }
  rewrite Ecol, even_mod2.
  replace ((IZR col + 1) / 2) with (IZR (col + 1) / 2)
    by (rewrite plus_IZR; reflexivity).
  rewrite math_floor_half.
  set (c := ((col + 1) / 2)%Z).
  destruct (half_parity col) as [[Hm E] | [Hm E]].
  - rewrite Hm. cbn [Z.eqb].
    assert (Ev : Z.even col = true) by (rewrite <- even_mod2, Hm; reflexivity).
    rewrite Ev.
    assert (Erow : math_floor (((IZR row - IZR c) * (radius * SQRT3) + 0 + dy)
                               / (SQRT3 * radius)) = (row - c)%Z).
    { apply math_floor_div; [exact Hh|]. rewrite minus_IZR. nra. }
    rewrite Erow, minus_IZR.
    repeat case_decide; split_Rlt_b;
      first [ repeat f_equal; lia | exfalso; unfold Rgt in *; nra ].
  - rewrite Hm. change (1 =? 1)%Z with true. cbv iota.
    assert (Ev : Z.even col = false) by (rewrite <- even_mod2, Hm; reflexivity).
    rewrite Ev.
    destruct (Rlt_dec dy (SQRT3 * radius / 2)) as [Hup | Hdown].
    + assert (Erow : math_floor (((IZR row - IZR c) * (radius * SQRT3)
                                  + radius * SQRT3 / 2 + dy)
                                 / (SQRT3 * radius)) = (row - c)%Z).
      { apply math_floor_div; [exact Hh|]. rewrite minus_IZR. nra. }
      rewrite Erow, minus_IZR.
      repeat case_decide; split_Rlt_b;
        first [ repeat f_equal; lia
              | exfalso; unfold Rgt in *;
                repeat match goal with
                       | C : Rabs _ < _ |- _ => apply Rabs_def2 in C
                       | C : _ <= Rabs _ |- _ =>
                           revert C; unfold Rabs; destruct (Rcase_abs _); intros C
                       end; nra ].
    + assert (Erow : math_floor (((IZR row - IZR c) * (radius * SQRT3)
                                  + radius * SQRT3 / 2 + dy)
                                 / (SQRT3 * radius)) = (row - c + 1)%Z).
      { apply math_floor_div; [exact Hh|]. rewrite plus_IZR, minus_IZR. nra. }
      rewrite Erow, plus_IZR, minus_IZR.
      repeat case_decide; split_Rlt_b;
        first [ repeat f_equal; lia
              | exfalso; unfold Rgt in *;
                repeat match goal with
                       | C : Rabs _ < _ |- _ => apply Rabs_def2 in C
                       | C : _ <= Rabs _ |- _ =>
                           revert C; unfold Rabs; destruct (Rcase_abs _); intros C
                       end; nra ].
Qed.

(** Moving the pixel by [i] times three radii to the right and [j] cell
    heights down moves the resolved cell by [2 * i] columns and [i + j]
    rows. *)
Lemma get_cell_resolve_shift radius x y (i j row col : Z) :
  0 < radius ->
  get_cell_resolve radius (x, y) = Returned (row, col) ->
  get_cell_resolve radius (x + 3 * radius * IZR i, y + SQRT3 * radius * IZR j)
  = Returned (row + i + j, col + 2 * i)%Z.
Proof.
  intros Hr. pose proof SQRT3_pos as Hs.
  assert (Hh : 0 < SQRT3 * radius) by nra.
  assert (Hw : 0 < 1.5 * radius) by lra.
  unfold get_cell_resolve. rewrite !py_div_pos by assumption. cbn [obind].
  pose proof (math_floor_div_bounds x (1.5 * radius) Hw) as Bx.
  pose proof (math_floor_div_bounds y (SQRT3 * radius) Hh) as By.
  set (col0 := math_floor (x / (1.5 * radius))) in *.
  set (row0 := math_floor (y / (SQRT3 * radius))) in *.
  assert (Ecol : math_floor ((x + 3 * radius * IZR i) / (1.5 * radius))
                 = (col0 + 2 * i)%Z).
  { apply math_floor_div; [exact Hw|]. rewrite plus_IZR, mult_IZR. lra. }
  assert (Erow : math_floor ((y + SQRT3 * radius * IZR j) / (SQRT3 * radius))
                 = (row0 + j)%Z).
  { apply math_floor_div; [exact Hh|]. rewrite plus_IZR. lra. }
  rewrite Ecol, Erow.
  replace (x + 3 * radius * IZR i - IZR (col0 + 2 * i) * 1.5 * radius)
    with (x - IZR col0 * 1.5 * radius)
    by (rewrite plus_IZR, mult_IZR; lra).
  replace (y + SQRT3 * radius * IZR j - IZR (row0 + j) * SQRT3 * radius)
    with (y - IZR row0 * SQRT3 * radius)
    by (rewrite plus_IZR; lra).
  replace ((IZR (col0 + 2 * i) + 1) / 2) with (IZR (col0 + 2 * i + 1) / 2)
    by (rewrite (plus_IZR _ 1); reflexivity).
  replace ((IZR col0 + 1) / 2) with (IZR (col0 + 1) / 2)
    by (rewrite plus_IZR; reflexivity).
  rewrite !math_floor_half.
  replace ((col0 + 2 * i) mod 2)%Z with (col0 mod 2)%Z by zdiv.
  replace ((col0 + 2 * i + 1) / 2)%Z with ((col0 + 1) / 2 + i)%Z by zdiv.
  repeat match goal with
         | |- context [if ?b then _ else _] => destruct b
         end;
    intros Heq; injection Heq as <- <-; f_equal; f_equal; lia.
Qed.

(** X6: the rectangle of cell [(row + i + j, col + 2 * i)] is the
    rectangle of [(row, col)] moved by [i] times three radii to the right
    and [j] cell heights down. *)
Theorem get_surface_shift radius (i j row col : Z) :
  get_surface radius (row + i + j, col + 2 * i)%Z =
  mkRect (rect_left (get_surface radius (row, col)) + 3 * radius * IZR i)
         (rect_top (get_surface radius (row, col)) + SQRT3 * radius * IZR j)
         (2 * radius) (radius * SQRT3).
Proof.
  unfold get_surface. cbn [rect_left rect_top]. rewrite !math_ceil_half.
  replace ((col + 2 * i) mod 2)%Z with (col mod 2)%Z by zdiv.
  replace ((col + 2 * i + 1) / 2)%Z with ((col + 1) / 2 + i)%Z by zdiv.
  f_equal.
  - rewrite plus_IZR, mult_IZR. lra.
  - rewrite !plus_IZR. destruct (col mod 2 =? 1)%Z; lra.
Qed.

(** Two floats with the same floor are less than 1 apart. *)
Lemma math_floor_eq_close (a b : R) :
  math_floor a = math_floor b -> -1 < a - b < 1.
Proof.
  intros E. pose proof (math_floor_bounds a). pose proof (math_floor_bounds b).
  rewrite E in *. lra.
Qed.

(** Integers less than 1 apart are equal. *)
Lemma IZR_close_eq (z1 z2 : Z) : -1 < IZR z1 - IZR z2 < 1 -> z1 = z2.
Proof.
  intros [Hlo Hhi]. rewrite <- minus_IZR in Hlo, Hhi.
  apply lt_IZR in Hlo, Hhi. lia.
Qed.

(** X7: for a radius of at least 2/3, distinct cells whose rectangle starts
    at non-negative coordinates ([0 <= col] and [ceil(col/2) <= row]) have
    distinct integer rectangles: [get_surface] hands distinct rectangles
    to [subsurface]. *)
Theorem get_surface_inj radius (row1 col1 row2 col2 : Z) :
  2 / 3 <= radius ->
  (0 <= col1)%Z -> (math_ceil (IZR col1 / 2) <= row1)%Z ->
  (0 <= col2)%Z -> (math_ceil (IZR col2 / 2) <= row2)%Z ->
  (row1, col1) <> (row2, col2) ->
  pygame_Rect (get_surface radius (row1, col1))
  <> pygame_Rect (get_surface radius (row2, col2)).
Proof.
  intros Hr Hc1 Hr1 Hc2 Hr2 Hne E. apply Hne. clear Hne.
  pose proof SQRT3_bounds as Hs.
  assert (Hh : 1 < radius * SQRT3) by nra.
  unfold pygame_Rect, get_surface in E. cbn [rect_left rect_top] in E.
  injection E as Ex Ey.
  assert (L1 : 0 <= 1.5 * radius * IZR col1)
    by (apply IZR_le in Hc1; nra).
  assert (L2 : 0 <= 1.5 * radius * IZR col2)
    by (apply IZR_le in Hc2; nra).
  rewrite !trunc_nonneg in Ex by assumption.
  apply math_floor_eq_close in Ex.
  assert (Ecol : col1 = col2).
  { destruct (Z.eq_dec col1 col2) as [E | N]; [exact E|]. exfalso.
    assert (Hd : IZR col1 - IZR col2 <= -1 \/ 1 <= IZR col1 - IZR col2).
    { rewrite <- minus_IZR.
      destruct (Z_lt_le_dec col1 col2); [left | right]; apply IZR_le; lia. }
    destruct Hd; nra. }
  subst col2. revert Ey.
  set (c := math_ceil (IZR col1 / 2)) in *.
  set (off := if (col1 mod 2 =? 1)%Z then radius * SQRT3 / 2 else 0).
  assert (Hoff : 0 <= off) by (unfold off; destruct (col1 mod 2 =? 1)%Z; lra).
  assert (T1 : 0 <= IZR row1 - IZR c)
    by (rewrite <- minus_IZR; apply IZR_le; lia).
  assert (T2 : 0 <= IZR row2 - IZR c)
    by (rewrite <- minus_IZR; apply IZR_le; lia).
  intros Ey. rewrite !trunc_nonneg in Ey by nra.
  apply math_floor_eq_close in Ey.
  assert (Erow : row1 = row2).
  { destruct (Z.eq_dec row1 row2) as [E | N]; [exact E|]. exfalso.
    assert (Hd : IZR row1 - IZR row2 <= -1 \/ 1 <= IZR row1 - IZR row2).
    { rewrite <- minus_IZR.
      destruct (Z_lt_le_dec row1 row2); [left | right]; apply IZR_le; lia. }
    destruct Hd; nra. }
  congruence.
Qed.

(** X3: for a positive radius, the pixel lies in the rectangle
    [get_surface] gives for the cell [get_cell] returns (right and bottom
    edges excluded). *)
Theorem get_cell_in_rect m radius x y (cell : Z * Z) :
  0 < radius ->
  get_cell m radius (x, y) = Returned (Some cell) ->
  rect_contains (get_surface radius cell) (x, y).
Proof.
  intros Hr. unfold get_cell.
  destruct (get_cell_resolve radius (x, y)) as [e | c] eqn:Eres;
    cbn [obind]; [discriminate|].
  destruct (valid_cell m c); [|discriminate].
  intros E. injection E as <-.
  apply get_cell_resolve_in_rect; assumption.
Qed.

(** X5: for a positive radius, moving the pixel by [i] times three radii
    to the right and [j] cell heights down moves the resolved cell by
    [2 * i] columns and [i + j] rows. *)
Theorem get_cell_shift radius x y (i j : Z) :
  0 < radius ->
  exists row col,
    get_cell_resolve radius (x, y) = Returned (row, col) /\
    get_cell_resolve radius (x + 3 * radius * IZR i, y + SQRT3 * radius * IZR j)
    = Returned (row + i + j, col + 2 * i)%Z.
Proof.
  intros Hr. destruct (PixelToCell_resolve radius x y) as [row col] eqn:E.
  exists row, col.
  assert (Eres : get_cell_resolve radius (x, y) = Returned (row, col))
    by (rewrite get_cell_resolve_eq, E by exact Hr; reflexivity).
  split; [exact Eres|]. apply get_cell_resolve_shift; assumption.
Qed.

(** X15: for a positive radius, the resolved column is a column of a map
    of [ncols] columns whenever [0.5 * radius <= x < 1.5 * radius * ncols],
    and is none of them whenever [x < 0] or
    [1.5 * radius * ncols + 0.5 * radius <= x]. *)
Theorem get_cell_column_range radius x y (ncols : Z) :
  0 < radius ->
  exists row col,
    get_cell_resolve radius (x, y) = Returned (row, col) /\
    (0.5 * radius <= x < 1.5 * radius * IZR ncols -> (0 <= col < ncols)%Z) /\
    (x < 0 \/ 1.5 * radius * IZR ncols + 0.5 * radius <= x ->
     ~ (0 <= col < ncols)%Z).
Proof.
  intros Hr. pose proof SQRT3_pos as Hs.
  assert (Hw : 0 < 1.5 * radius) by lra.
  unfold get_cell_resolve. rewrite !py_div_pos by nra. cbn [obind].
  pose proof (math_floor_div_bounds x (1.5 * radius) Hw) as Bx.
  set (col0 := math_floor (x / (1.5 * radius))) in *.
  set (row0 := math_floor (y / (SQRT3 * radius))).
  set (row1 := (row0 + math_floor ((IZR col0 + 1) / 2))%Z).
  assert (Hin : 0.5 * radius <= x < 1.5 * radius * IZR ncols ->
                (0 <= col0 < ncols)%Z /\
                (col0 = 0%Z -> 0.5 * radius <= x - IZR col0 * 1.5 * radius)).
  { intros [Hlo Hhi]. split; [split|].
    - apply le_IZR. apply Rnot_lt_le. intros Hneg.
      assert (IZR col0 + 1 <= 0)
        by (rewrite <- (plus_IZR col0 1); apply IZR_le;
            apply lt_IZR in Hneg; lia).
      nra.
    - apply lt_IZR. nra.
    - intros ->. lra. }
  assert (Hout : x < 0 \/ 1.5 * radius * IZR ncols + 0.5 * radius <= x ->
                 (col0 < 0)%Z \/
                 (ncols < col0)%Z \/
                 (col0 = ncols /\ 0.5 * radius <= x - IZR col0 * 1.5 * radius)).
  { intros [Hneg | Hbig].
    - left. apply lt_IZR. nra.
    - destruct (Z_lt_le_dec col0 ncols) as [Hlt | Hge].
      + exfalso.
        assert (IZR col0 + 1 <= IZR ncols)
          by (rewrite <- (plus_IZR col0 1); apply IZR_le; lia).
        nra.
      + right. destruct (Z.eq_dec col0 ncols) as [-> | Hne].
        * right. split; [reflexivity | lra].
        * left. lia. }
  match goal with
  | |- exists row col, ?body = Returned (row, col) /\ _ =>
      assert (Hres : exists row col,
                 body = Returned (row, col) /\
                 (col = col0 \/
                  (col = (col0 - 1)%Z /\
                   x - IZR col0 * 1.5 * radius < 0.5 * radius)))
  end.
  { split_Rlt_b; destruct (col0 mod 2 =? 0)%Z;
      eexists _, _; (split; [reflexivity|]);
      first [ left; reflexivity | right; split; [reflexivity | assumption] ]. }
  destruct Hres as (row & col & Eres & Hcol).
  exists row, col. split; [exact Eres|]. split.
  - intros Hx. apply Hin in Hx as [Hx Hx0].
    destruct Hcol as [-> | [-> Hlx]]; [exact Hx|].
    destruct (Z.eq_dec col0 0%Z) as [E0 | N0]; [specialize (Hx0 E0); lra | lia].
  - intros Hx. apply Hout in Hx as [Hx | [Hx | [Hx Hx0]]];
      destruct Hcol as [-> | [-> Hlx]]; try lia; lra.
Qed.

(** X16: for a positive radius, the resolved cell [(row, col)] has its row
    in the range [ceil(col/2) <= row < ceil(col/2) + nrows] exactly when
    the pixel is at most [nrows] cell heights below the top of the column,
    which is [0] for an even and half a cell height for an odd column. *)
Theorem get_cell_row_range radius x y (nrows row col : Z) :
  0 < radius ->
  get_cell_resolve radius (x, y) = Returned (row, col) ->
  let top := if Z.odd col then SQRT3 * radius / 2 else 0 in
  (math_ceil (IZR col / 2) <= row < math_ceil (IZR col / 2) + nrows)%Z <->
  top <= y < SQRT3 * radius * IZR nrows + top.
Proof.
  intros Hr Hres top. pose proof SQRT3_pos as Hs.
  assert (Hh : 0 < radius * SQRT3) by nra.
  apply get_cell_resolve_in_rect in Hres as [_ Hy]; [|exact Hr].
  revert Hy. unfold rect_bottom, get_surface.
  cbn [rect_top rect_height snd].
  replace (col mod 2 =? 1)%Z with (Z.odd col)
    by (rewrite <- Z.negb_even, <- even_mod2;
        destruct (half_parity col) as [[-> _] | [-> _]]; reflexivity).
  fold top. set (c := math_ceil (IZR col / 2)).
  replace (if Z.odd col then radius * SQRT3 / 2 else 0) with top
    by (unfold top; destruct (Z.odd col); lra).
  intros [Hlo Hhi]. split.
  - intros [H0 H1].
    assert (B0 : 0 <= IZR row - IZR c)
      by (rewrite <- minus_IZR; apply IZR_le; lia).
    assert (B1 : IZR row - IZR c <= IZR nrows - 1)
      by (rewrite <- !minus_IZR; apply IZR_le; lia).
    nra.
  - intros [H0 H1].
    assert (B0 : -1 < IZR row - IZR c) by nra.
    assert (B1 : IZR row - IZR c < IZR nrows) by nra.
    rewrite <- minus_IZR in B0, B1.
    apply lt_IZR in B0, B1. lia.
Qed.

End MoreLookup.

(** ** Further properties of the canvas and of the renderers *)

Section MoreDrawing.

Context {Unit : Type} `{DrawingLibrary Unit}.
Implicit Types (m : Map Unit) (radius : R) (s : Surface Unit).

(** The loop indices of [RenderGrid.draw] and the cells of [get_surface]:
    the outline drawn for [(row, col)] is the point list placed in the
    rectangle of cell [(row + ceil(col/2), col)]. *)
Lemma hexagon_at_get_surface radius (row col : Z) :
  hexagon_at radius row col =
  outline_in radius (get_surface radius (row + math_ceil (IZR col / 2), col)%Z).
Proof.
  unfold hexagon_at, outline_in, get_surface, cell_points.
  cbn [rect_left rect_top fmap list_fmap].
  rewrite math_ceil_half, plus_IZR.
  replace (col mod 2 =? 1)%Z with (Z.odd col)
    by (rewrite <- Z.negb_even, <- even_mod2;
        destruct (half_parity col) as [[-> _] | [-> _]]; reflexivity).
  repeat (apply (f_equal2 cons);
          [apply (f_equal2 pair); destruct (Z.odd col); lra|]).
  reflexivity.
Qed.

Lemma elem_of_axial_cells m (row col : Z) :
  (row, col) ∈ axial_cells m <->
  (0 <= col < cols m)%Z /\
  (math_ceil (IZR col / 2) <= row < math_ceil (IZR col / 2) + rows m)%Z.
Proof.
  unfold axial_cells. rewrite list_elem_of_fmap. split.
  - intros ([r c] & E & Hin). injection E as -> ->.
    apply elem_of_grid_cells in Hin. lia.
  - intros [Hc Hr]. exists ((row - math_ceil (IZR col / 2))%Z, col). split.
    + f_equal. lia.
    + apply elem_of_grid_cells. lia.
Qed.

Lemma NoDup_axial_cells m : NoDup (axial_cells m).
Proof.
  unfold axial_cells. apply NoDup_fmap_2; [|apply NoDup_grid_cells].
  intros [r1 c1] [r2 c2] E. injection E as Er Ec. subst c2. f_equal. lia.
Qed.

Lemma RenderGrid_draw_outlines_calls m radius s :
  (forall row col,
     (row, col) ∈ axial_cells m ->
     (0 <= col < cols m)%Z /\
     (math_ceil (IZR col / 2) <= row < math_ceil (IZR col / 2) + rows m)%Z) /\
  calls (RenderGrid_draw m radius s) =
    calls s ++ base_calls s ++
    ((fun cell => CallPolygon GRID_COLOR (outline_in radius (get_surface radius cell)) 1)
       <$> axial_cells m).
Proof.
  split; [intros row col; apply elem_of_axial_cells|].
  rewrite RenderGrid_draw_calls, Render_draw_calls, <- app_assoc.
  do 2 f_equal. unfold axial_cells. rewrite <- list_fmap_compose.
  apply list_fmap_ext. intros _ [row col] _. unfold compose.
  rewrite hexagon_at_get_surface. reflexivity.
Qed.

(** X8: the polygons of [RenderGrid.draw] are the cell point list placed
    at the top-left corner of the rectangle [get_surface] gives, once for
    every cell [(row, col)] with [0 <= col < cols] and
    [ceil(col/2) <= row < ceil(col/2) + rows]. *)
Theorem RenderGrid_draw_outlines m radius s :
  NoDup (axial_cells m) /\
  (forall row col,
     (row, col) ∈ axial_cells m <->
     (0 <= col < cols m)%Z /\
     (math_ceil (IZR col / 2) <= row < math_ceil (IZR col / 2) + rows m)%Z) /\
  calls (RenderGrid_draw m radius s) =
    calls s ++ base_calls s ++
    ((fun cell => CallPolygon GRID_COLOR (outline_in radius (get_surface radius cell)) 1)
       <$> axial_cells m).
Proof.
  split; [apply NoDup_axial_cells|]. split; [apply elem_of_axial_cells|].
  apply RenderGrid_draw_outlines_calls.
Qed.

Lemma length_grid_cells m :
  length (grid_cells m) = (Z.to_nat (cols m) * Z.to_nat (rows m))%nat.
Proof.
  unfold grid_cells, py_range. rewrite <- (length_seqZ 0 (cols m)).
  induction (seqZ 0 (cols m)) as [|col l IH]; [reflexivity|].
  rewrite bind_cons, length_app, IH, length_fmap, length_seqZ. reflexivity.
Qed.

(** X9: the number of calls of a [draw]: the base calls, then
    [cols * rows] polygons (none when either is negative) for the grid;
    for the units, the base calls and then at most as many [paint] calls
    as the map has units, and exactly as many when and only when the
    [draw] raises nothing. *)
Theorem draw_calls_count m radius s :
  length (calls (RenderGrid_draw m radius s)) =
    (length (calls s) + length (base_calls s)
     + Z.to_nat (cols m) * Z.to_nat (rows m))%nat /\
  (length (calls (RenderUnits_draw m radius s)) <=
     length (calls s) + length (base_calls s) + size (positions m))%nat /\
  (RenderUnits_draw_raises m radius s = None <->
   length (calls (RenderUnits_draw m radius s)) =
     (length (calls s) + length (base_calls s) + size (positions m))%nat).
Proof.
  split.
  - rewrite RenderGrid_draw_calls, Render_draw_calls.
    rewrite !length_app, length_fmap, length_grid_cells. reflexivity.
  - unfold RenderUnits_draw, RenderUnits_draw_raises, RenderUnits_draw_run.
    destruct (paint_units_split radius (map_to_list (positions m))
                (Render_draw s) (pixels (Render_draw s)) eq_refl)
      as (painted & skipped & Eitems & _ & Hskip & Hcalls & _).
    assert (Hsize : size (positions m) = (length painted + length skipped)%nat)
      by (rewrite <- length_map_to_list, Eitems, length_app; reflexivity).
    rewrite Hcalls, Render_draw_calls, !length_app, length_fmap, Hsize.
    split; [lia|].
    destruct skipped as [|[position unit] skipped].
    + split; [intros _; cbn; lia | intros _; exact Hskip].
    + destruct Hskip as [_ ->]. cbn [length]. split; [discriminate | lia].
Qed.

Lemma foldl_unchanged {A : Type} (l : list A) s :
  foldl (fun s' _ => s') s l = s.
Proof. induction l as [|a l IH]; [reflexivity | exact IH]. Qed.

Lemma fill_px_uniform c b : Forall (Forall (fun p => p = c)) (fill_px c b).
Proof.
  unfold fill_px. apply Forall_fmap, Forall_forall. intros line _.
  apply Forall_fmap, Forall_forall. intros p _. reflexivity.
Qed.

(** X10: on a map without units, or a grid without rows or without
    columns, the [draw] is the base [draw], which leaves every pixel with
    the fill colour. *)
Theorem draw_nothing m radius s :
  (positions m = ∅ -> RenderUnits_draw m radius s = Render_draw s) /\
  ((rows m <= 0 \/ cols m <= 0)%Z -> RenderGrid_draw m radius s = Render_draw s) /\
  Forall (Forall (fun p => p = fill_color s)) (pixels (Render_draw s)).
Proof.
  split; [|split].
  - intros E. unfold RenderUnits_draw, RenderUnits_draw_run.
    rewrite E, map_to_list_empty. reflexivity.
  - intros [Hrows | Hcols]; unfold RenderGrid_draw, py_range.
    + rewrite (seqZ_nil 0 (rows m)) by lia. cbn [foldl]. apply foldl_unchanged.
    + rewrite (seqZ_nil 0 (cols m)) by lia. reflexivity.
  - rewrite Render_draw_pixels. apply fill_px_uniform.
Qed.

(** X11: a [draw] never resizes the buffer, and leaves the colorkey set:
    the one that was set, magenta if none was. *)
Theorem draw_keeps_shape m radius s :
  (shape (pixels (RenderGrid_draw m radius s)) = shape (pixels s) /\
   colorkey (RenderGrid_draw m radius s) = Some (fill_color s)) /\
  (shape (pixels (RenderUnits_draw m radius s)) = shape (pixels s) /\
   colorkey (RenderUnits_draw m radius s) = Some (fill_color s)).
Proof.
  split.
  - destruct (foldl_keeps _ (py_range (cols m)) (Render_draw s)
                (RenderGrid_draw_step radius (rows m))) as [Ek Es].
    unfold RenderGrid_draw. split.
    + etrans; [exact Es|]. rewrite Render_draw_pixels. apply fill_px_shape.
    + etrans; [exact Ek|]. apply Render_draw_colorkey.
  - destruct (paint_units_keeps radius (map_to_list (positions m)) (Render_draw s))
      as [Ek Es].
    unfold RenderUnits_draw, RenderUnits_draw_run. split.
    + etrans; [exact Es|]. rewrite Render_draw_pixels. apply fill_px_shape.
    + etrans; [exact Ek|]. apply Render_draw_colorkey.
Qed.

Lemma width_by_parity m radius :
  width m radius =
    1.5 * radius * IZR (cols m) + (if Z.odd (cols m) then 0.5 * radius else 0) + 1.
Proof.
  rewrite width_eq. set (n := cols m).
  destruct (half_parity n) as [[Hm E] | [Hm E]].
  - replace (Z.odd n) with false
      by (rewrite <- Z.negb_even, <- even_mod2, Hm; reflexivity).
    replace ((n + 1) / 2)%Z with (n / 2)%Z by zdiv.
    rewrite E at 3. rewrite mult_IZR. lra.
  - replace (Z.odd n) with true
      by (rewrite <- Z.negb_even, <- even_mod2, Hm; reflexivity).
    replace ((n + 1) / 2)%Z with (n / 2 + 1)%Z by zdiv.
    rewrite E at 3. rewrite !plus_IZR, mult_IZR. lra.
Qed.

(** X12: the width in closed form: [1.5 * radius * cols + 1] for an even
    number of columns, half a radius more for an odd one. *)
Theorem width_closed_form m radius :
  (Z.even (cols m) = true -> width m radius = 1.5 * radius * IZR (cols m) + 1) /\
  (Z.odd (cols m) = true ->
   width m radius = 1.5 * radius * IZR (cols m) + 0.5 * radius + 1).
Proof.
  split; intros Hp; rewrite width_by_parity.
  - rewrite <- Z.negb_even, Hp. cbn [negb]. lra.
  - rewrite Hp. reflexivity.
Qed.

(** X13: with an even number of columns, at least two, the integer
    rectangle of a cell of the last column ends within the width of the
    surface for a radius of at most 2, and beyond it for a radius of at
    least 6, where [get_surface] raises [ValueError] on a surface as wide
    as the canvas. *)
Theorem last_column_even_cols m radius (row : Z) :
  0 < radius ->
  Z.even (cols m) = true ->
  (2 <= cols m)%Z ->
  (radius <= 2 ->
   (irect_right (pygame_Rect (get_surface radius (row, cols m - 1)%Z))
    <= trunc (width m radius))%Z) /\
  (6 <= radius ->
   (trunc (width m radius)
    < irect_right (pygame_Rect (get_surface radius (row, cols m - 1)%Z)))%Z /\
   forall s : Surface Unit,
     surf_w (pixels s) = trunc (width m radius) ->
     Render_get_surface radius (row, cols m - 1)%Z s = Raised ValueError).
Proof.
  intros Hr Hev Hcols.
  assert (W : width m radius = 1.5 * radius * IZR (cols m) + 1)
    by (rewrite width_by_parity, <- Z.negb_even, Hev; cbn [negb]; lra).
  assert (Hn : 2 <= IZR (cols m)) by (apply IZR_le in Hcols; exact Hcols).
  assert (Hw : 0 <= width m radius) by (rewrite W; nra).
  unfold irect_right, pygame_Rect, get_surface.
  cbn [irect_x irect_w rect_left rect_width].
  rewrite minus_IZR.
  set (left := 1.5 * radius * (IZR (cols m) - 1)).
  assert (Hleft : 0 <= left) by (unfold left; nra).
  destruct (trunc_bounds left Hleft) as [_ [Hl0 Hl1]].
  destruct (trunc_bounds (2 * radius)) as [_ [Hw0 Hw1]]; [lra|].
  destruct (trunc_bounds (width m radius) Hw) as [_ [Hc0 Hc1]].
  split.
  - intros Hsmall. apply trunc_above; [exact Hw|].
    rewrite plus_IZR, W. unfold left in *. lra.
  - intros Hbig.
    assert (Hlt : (trunc (width m radius) < trunc left + trunc (2 * radius))%Z).
    { apply lt_IZR. rewrite plus_IZR. unfold left in *. lra. }
    split; [exact Hlt|].
    intros s Hs. unfold Render_get_surface, subsurface.
    rewrite inside_surface_right; [reflexivity|].
    rewrite Hs. unfold pygame_Rect, get_surface.
    cbn [irect_x irect_w rect_left rect_width].
    rewrite minus_IZR. exact Hlt.
Qed.

(** The rectangle of a cell of the grid is inside the canvas, unless the
    number of columns is even, the cell in the last column and the radius
    more than 2. *)
Lemma get_surface_inside m radius (row col : Z) :
  0 < radius ->
  (0 <= col < cols m)%Z ->
  (math_ceil (IZR col / 2) <= row < math_ceil (IZR col / 2) + rows m)%Z ->
  Z.odd (cols m) = true \/ (col < cols m - 1)%Z \/ radius <= 2 ->
  rect_inside (get_surface radius (row, col)) (width m radius) (height m radius).
Proof.
  intros Hr [Hc0 Hc1] [Hr0 Hr1] Hfit. pose proof SQRT3_pos as Hs.
  assert (Hh : 0 < radius * SQRT3) by nra.
  rewrite width_by_parity.
  unfold height, rect_inside, rect_right, rect_bottom, get_surface.
  cbn [rect_left rect_top rect_width rect_height].
  set (c := math_ceil (IZR col / 2)) in *.
  assert (B1 : 0 <= IZR col) by (apply IZR_le; lia).
  assert (B2 : IZR col <= IZR (cols m) - 1)
    by (rewrite <- minus_IZR; apply IZR_le; lia).
  assert (B3 : 0 <= IZR row - IZR c)
    by (rewrite <- minus_IZR; apply IZR_le; lia).
  assert (B4 : IZR row - IZR c <= IZR (rows m) - 1)
    by (rewrite <- !minus_IZR; apply IZR_le; lia).
  assert (B5 : 0 <= (if (col mod 2 =? 1)%Z then radius * SQRT3 / 2 else 0)
               <= radius * SQRT3 / 2)
    by (destruct (col mod 2 =? 1)%Z; lra).
  assert (Hright : 1.5 * radius * IZR col + 2 * radius
                   <= 1.5 * radius * IZR (cols m)
                      + (if Z.odd (cols m) then 0.5 * radius else 0) + 1).
  { destruct Hfit as [Hodd | [Hcol | Hsmall]].
    - rewrite Hodd. nra.
    - assert (IZR col <= IZR (cols m) - 2)
        by (rewrite <- minus_IZR; apply IZR_le; lia).
      destruct (Z.odd (cols m)); nra.
    - destruct (Z.odd (cols m)); nra. }
  repeat split; nra.
Qed.

(** X17: for a positive radius and a surface of the dimensions of the
    canvas, [get_surface] raises nothing and returns the sub-view of the
    integer rectangle for every cell [(row, col)] with [0 <= col < cols]
    and [ceil(col/2) <= row < ceil(col/2) + rows], unless the number of
    columns is even, the cell in the last column and the radius more
    than 2. *)
Theorem Render_get_surface_returns m radius (row col : Z) (s : Surface Unit) :
  0 < radius ->
  (0 <= col < cols m)%Z ->
  (math_ceil (IZR col / 2) <= row < math_ceil (IZR col / 2) + rows m)%Z ->
  Z.odd (cols m) = true \/ (col < cols m - 1)%Z \/ radius <= 2 ->
  surf_w (pixels s) = trunc (width m radius) ->
  surf_h (pixels s) = trunc (height m radius) ->
  Render_get_surface radius (row, col) s
  = Returned (pygame_Rect (get_surface radius (row, col))).
Proof.
  intros Hr Hcol Hrow Hfit Hsw Hsh. pose proof SQRT3_pos as Hs.
  destruct (get_surface_inside m radius row col Hr Hcol Hrow Hfit)
    as (Hleft & Htop & Hright & Hbottom).
  unfold Render_get_surface, subsurface.
  set (q := get_surface radius (row, col)) in *.
  assert (Hw : 0 <= rect_width q) by (unfold q, get_surface; cbn; lra).
  assert (Hh : 0 <= rect_height q) by (unfold q, get_surface; cbn; nra).
  destruct (trunc_bounds _ Hleft) as [X0 [X1 _]].
  destruct (trunc_bounds _ Htop) as [Y0 [Y1 _]].
  destruct (trunc_bounds _ Hw) as [_ [W1 _]].
  destruct (trunc_bounds _ Hh) as [_ [H1 _]].
  unfold rect_right, rect_bottom in Hright, Hbottom.
  assert (Hx : (trunc (rect_left q) + trunc (rect_width q)
                <= trunc (width m radius))%Z)
    by (apply trunc_above; [lra | rewrite plus_IZR; lra]).
  assert (Hy : (trunc (rect_top q) + trunc (rect_height q)
                <= trunc (height m radius))%Z)
    by (apply trunc_above; [lra | rewrite plus_IZR; lra]).
  unfold inside_surface, pygame_Rect. cbn [irect_x irect_y irect_w irect_h].
  rewrite Hsw, Hsh.
  replace (trunc (rect_left q) <? 0)%Z with false by (symmetry; apply Z.ltb_ge; lia).
  replace (trunc (rect_top q) <? 0)%Z with false by (symmetry; apply Z.ltb_ge; lia).
  replace (trunc (width m radius) <? trunc (rect_left q) + trunc (rect_width q))%Z
    with false by (symmetry; apply Z.ltb_ge; lia).
  replace (trunc (height m radius) <? trunc (rect_top q) + trunc (rect_height q))%Z
    with false by (symmetry; apply Z.ltb_ge; lia).
  reflexivity.
Qed.

(** With an odd number of columns every vertex of the outline of a cell
    lies on the canvas, one pixel short of its width and height at most. *)
Lemma outline_on_canvas m radius (row col : Z) (p : R * R) :
  0 < radius ->
  Z.odd (cols m) = true ->
  (0 <= col < cols m)%Z ->
  (math_ceil (IZR col / 2) <= row < math_ceil (IZR col / 2) + rows m)%Z ->
  p ∈ outline_in radius (get_surface radius (row, col)) ->
  0 <= fst p <= width m radius - 1 /\ 0 <= snd p <= height m radius - 1.
Proof.
  intros Hr Hodd [Hc0 Hc1] [Hr0 Hr1] Hin. pose proof SQRT3_pos as Hs.
  assert (Hh : 0 < radius * SQRT3) by nra.
  rewrite width_by_parity, Hodd. unfold height.
  revert Hin. unfold outline_in, get_surface, cell_points.
  cbn [rect_left rect_top fmap list_fmap].
  set (c := math_ceil (IZR col / 2)) in *.
  assert (B1 : 0 <= IZR col) by (apply IZR_le; lia).
  assert (B2 : IZR col <= IZR (cols m) - 1)
    by (rewrite <- minus_IZR; apply IZR_le; lia).
  assert (B3 : 0 <= IZR row - IZR c)
    by (rewrite <- minus_IZR; apply IZR_le; lia).
  assert (B4 : IZR row - IZR c <= IZR (rows m) - 1)
    by (rewrite <- !minus_IZR; apply IZR_le; lia).
  assert (B5 : 0 <= (if (col mod 2 =? 1)%Z then radius * SQRT3 / 2 else 0)
               <= radius * SQRT3 / 2)
    by (destruct (col mod 2 =? 1)%Z; lra).
  intros Hin.
  repeat (apply elem_of_cons in Hin as [-> | Hin]; [cbn [fst snd]; nra|]).
  apply elem_of_nil in Hin. contradiction.
Qed.

(** X14: with a positive radius and an odd number of columns, every
    vertex of every polygon [RenderGrid.draw] draws on a fresh surface
    lies on the canvas, at most at [width - 1] and [height - 1]. *)
Theorem RenderGrid_draw_on_canvas m radius s c (points : list (R * R)) w
    (p : R * R) :
  0 < radius ->
  Z.odd (cols m) = true ->
  calls s = [] ->
  CallPolygon c points w ∈ calls (RenderGrid_draw m radius s) ->
  p ∈ points ->
  0 <= fst p <= width m radius - 1 /\ 0 <= snd p <= height m radius - 1.
Proof.
  intros Hr Hodd Hfresh Hcall Hp.
  destruct (RenderGrid_draw_outlines_calls m radius s) as [Hmem Hcalls].
  rewrite Hcalls, Hfresh in Hcall. cbn [app] in Hcall.
  apply elem_of_app in Hcall as [Hbase | Hpoly].
  - exfalso. unfold base_calls in Hbase. destruct (colorkey s);
      repeat (apply elem_of_cons in Hbase as [Hbase | Hbase]; [discriminate|]);
      apply elem_of_nil in Hbase; exact Hbase.
  - apply list_elem_of_fmap in Hpoly as ([row col] & E & Hin).
    injection E as _ -> _. apply Hmem in Hin as [Hcol Hrow].
    apply (outline_on_canvas m radius row col); assumption.
Qed.

End MoreDrawing.

(** ** Examples of the further properties *)

Lemma demo_center_lookup :
  get_cell demo_map 32 (rect_center (get_surface 32 (2, 1)%Z))
  = Returned (Some (2, 1)%Z).
Proof.
  unfold get_cell. rewrite center_resolves by lra. reflexivity.
Qed.

Lemma get_cell_only_valid_witness :
  get_cell demo_map 32 (rect_center (get_surface 32 (2, 1)%Z))
  = Returned (Some (2, 1)%Z) /\
  valid_cell demo_map (2, 1)%Z = true.
Proof.
  split; [exact demo_center_lookup|].
  exact (get_cell_only_valid demo_map 32 _ _ (2, 1)%Z demo_center_lookup).
Defined.

Lemma get_cell_in_rect_witness :
  0 < 32 /\
  get_cell demo_map 32 (rect_center (get_surface 32 (2, 1)%Z))
  = Returned (Some (2, 1)%Z) /\
  rect_contains (get_surface 32 (2, 1)%Z)
    (rect_center (get_surface 32 (2, 1)%Z)).
Proof.
  assert (Hr : 0 < 32) by lra.
  split; [exact Hr|]. split; [exact demo_center_lookup|].
  exact (get_cell_in_rect demo_map 32 _ _ (2, 1)%Z Hr demo_center_lookup).
Defined.

Lemma get_cell_by_rect_witness :
  0 < 32 /\ 0 <= 8 < 1.5 * 32 /\ 0 <= 4 < SQRT3 * 32 /\
  get_cell_resolve 32
    (rect_left (get_surface 32 (2, 1)%Z) + 8,
     rect_top (get_surface 32 (2, 1)%Z) + 4) =
  Returned
    (if decide (8 < 0.5 * 32 /\ 4 < SQRT3 * 32 / 2 - 8)
     then (2 - 1, 1 - 1)%Z
     else if decide (8 < 0.5 * 32 /\ 4 > SQRT3 * 32 / 2 + 8)
     then (2, 1 - 1)%Z
     else (2, 1)%Z).
Proof.
  assert (Hr : 0 < 32) by lra.
  assert (Hx : 0 <= 8 < 1.5 * 32) by lra.
  assert (Hy : 0 <= 4 < SQRT3 * 32) by (pose proof SQRT3_bounds; lra).
  split; [exact Hr|]. split; [exact Hx|]. split; [exact Hy|].
  exact (get_cell_by_rect 32 2 1 8 4 Hr Hx Hy).
Defined.

Lemma get_cell_shift_witness :
  0 < 32 /\
  exists row col,
    get_cell_resolve 32 (100, 50) = Returned (row, col) /\
    get_cell_resolve 32 (100 + 3 * 32 * IZR 2, 50 + SQRT3 * 32 * IZR (-1))
    = Returned (row + 2 + -1, col + 2 * 2)%Z.
Proof.
  assert (Hr : 0 < 32) by lra.
  split; [exact Hr|].
  exact (get_cell_shift 32 100 50 2 (-1) Hr).
Defined.

Lemma get_surface_inj_witness :
  2 / 3 <= 1 /\
  (0 <= 1)%Z /\ (math_ceil (IZR 1 / 2) <= 2)%Z /\
  (0 <= 1)%Z /\ (math_ceil (IZR 1 / 2) <= 3)%Z /\
  (2, 1)%Z <> (3, 1)%Z /\
  pygame_Rect (get_surface 1 (2, 1)%Z) <> pygame_Rect (get_surface 1 (3, 1)%Z).
Proof.
  assert (Hr : 2 / 3 <= 1) by lra.
  assert (Hc : (0 <= 1)%Z) by lia.
  assert (E : math_ceil (IZR 1 / 2) = 1%Z)
    by (rewrite math_ceil_half; reflexivity).
  assert (H2 : (math_ceil (IZR 1 / 2) <= 2)%Z) by (rewrite E; lia).
  assert (H3 : (math_ceil (IZR 1 / 2) <= 3)%Z) by (rewrite E; lia).
  assert (Hne : (2, 1)%Z <> (3, 1)%Z) by discriminate.
  repeat (split; [assumption|]).
  exact (get_surface_inj 1 2 1 3 1 Hr Hc H2 Hc H3 Hne).
Defined.

Lemma draw_nothing_witness :
  positions (grid_map 0 3 ∅) = ∅ /\
  (rows (grid_map 0 3 ∅) <= 0 \/ cols (grid_map 0 3 ∅) <= 0)%Z /\
  RenderUnits_draw (grid_map 0 3 ∅) 32 blank_surface = Render_draw blank_surface /\
  RenderGrid_draw (grid_map 0 3 ∅) 32 blank_surface = Render_draw blank_surface.
Proof.
  assert (Hp : positions (grid_map 0 3 ∅) = ∅) by reflexivity.
  assert (Hg : (rows (grid_map 0 3 ∅) <= 0 \/ cols (grid_map 0 3 ∅) <= 0)%Z)
    by (left; cbn; lia).
  split; [exact Hp|]. split; [exact Hg|].
  destruct (draw_nothing (grid_map 0 3 ∅) 32 blank_surface) as (Hu & Hgrid & _).
  split; [exact (Hu Hp) | exact (Hgrid Hg)].
Defined.

Lemma width_closed_form_witness :
  Z.odd (cols demo_map) = true /\
  width demo_map 32 = 1.5 * 32 * IZR (cols demo_map) + 0.5 * 32 + 1.
Proof.
  split; [reflexivity|].
  exact (proj2 (width_closed_form demo_map 32) eq_refl).
Defined.

Lemma last_column_even_cols_witness :
  0 < 32 /\ Z.even (cols (grid_map 2 2 ∅)) = true /\
  (2 <= cols (grid_map 2 2 ∅))%Z /\ 6 <= 32 /\
  (trunc (width (grid_map 2 2 ∅) 32)
   < irect_right (pygame_Rect (get_surface 32 (1, cols (grid_map 2 2 ∅) - 1)%Z)))%Z.
Proof.
  assert (Hr : 0 < 32) by lra.
  assert (Hc : (2 <= cols (grid_map 2 2 ∅))%Z) by (cbn; lia).
  assert (Hbig : 6 <= 32) by lra.
  split; [exact Hr|]. split; [reflexivity|]. split; [exact Hc|].
  split; [exact Hbig|].
  exact (proj1 (proj2 (last_column_even_cols (grid_map 2 2 ∅) 32 1 Hr eq_refl Hc)
                 Hbig)).
Defined.

Lemma demo_first_polygon :
  CallPolygon GRID_COLOR (outline_in 32 (get_surface 32 (0, 0)%Z)) 1
  ∈ calls (RenderGrid_draw demo_map 32 blank_surface).
Proof.
  destruct (RenderGrid_draw_outlines_calls demo_map 32 blank_surface) as [_ ->].
  apply elem_of_app. right. apply elem_of_app. right.
  apply list_elem_of_fmap. exists (0, 0)%Z. split; [reflexivity|].
  apply elem_of_axial_cells. rewrite math_ceil_half.
  change ((0 + 1) / 2)%Z with 0%Z. cbn. lia.
Qed.

Lemma demo_first_vertex :
  (0.5 * 32 + rect_left (get_surface 32 (0, 0)%Z),
   0 + rect_top (get_surface 32 (0, 0)%Z))
  ∈ outline_in 32 (get_surface 32 (0, 0)%Z).
Proof. unfold outline_in, cell_points. cbn [fmap list_fmap]. apply elem_of_cons. left. reflexivity. Qed.

Lemma RenderGrid_draw_on_canvas_witness :
  0 < 32 /\ Z.odd (cols demo_map) = true /\ calls blank_surface = [] /\
  0 <= 0.5 * 32 + rect_left (get_surface 32 (0, 0)%Z) <= width demo_map 32 - 1 /\
  0 <= 0 + rect_top (get_surface 32 (0, 0)%Z) <= height demo_map 32 - 1.
Proof.
  assert (Hr : 0 < 32) by lra.
  split; [exact Hr|]. split; [reflexivity|]. split; [reflexivity|].
  exact (RenderGrid_draw_on_canvas demo_map 32 blank_surface _ _ _ _
           Hr eq_refl eq_refl demo_first_polygon demo_first_vertex).
Defined.

Lemma get_cell_column_range_witness :
  0 < 32 /\
  exists row col,
    get_cell_resolve 32 (100, 50) = Returned (row, col) /\
    (0.5 * 32 <= 100 < 1.5 * 32 * IZR 5 -> (0 <= col < 5)%Z) /\
    (100 < 0 \/ 1.5 * 32 * IZR 5 + 0.5 * 32 <= 100 -> ~ (0 <= col < 5)%Z).
Proof.
  assert (Hr : 0 < 32) by lra.
  split; [exact Hr|].
  exact (get_cell_column_range 32 100 50 5 Hr).
Defined.

Lemma demo_center_resolve :
  get_cell_resolve 32 (rect_center (get_surface 32 (2, 1)%Z))
  = Returned (2, 1)%Z.
Proof. apply center_resolves. lra. Qed.

Lemma get_cell_row_range_witness :
  0 < 32 /\
  get_cell_resolve 32
    (rect_left (get_surface 32 (2, 1)%Z) + rect_width (get_surface 32 (2, 1)%Z) / 2,
     rect_top (get_surface 32 (2, 1)%Z) + rect_height (get_surface 32 (2, 1)%Z) / 2)
  = Returned (2, 1)%Z /\
  ((math_ceil (IZR 1 / 2) <= 2 < math_ceil (IZR 1 / 2) + 5)%Z <->
   (if Z.odd 1 then SQRT3 * 32 / 2 else 0)
   <= rect_top (get_surface 32 (2, 1)%Z) + rect_height (get_surface 32 (2, 1)%Z) / 2
   < SQRT3 * 32 * IZR 5 + (if Z.odd 1 then SQRT3 * 32 / 2 else 0)).
Proof.
  assert (Hr : 0 < 32) by lra.
  split; [exact Hr|]. split; [exact demo_center_resolve|].
  exact (get_cell_row_range 32 _ _ 5 2 1 Hr demo_center_resolve).
Defined.

Lemma Render_get_surface_returns_witness :
  0 < 32 /\
  (0 <= 4 < cols demo_map)%Z /\
  (math_ceil (IZR 4 / 2) <= 6 < math_ceil (IZR 4 / 2) + rows demo_map)%Z /\
  (Z.odd (cols demo_map) = true \/ (4 < cols demo_map - 1)%Z \/ 32 <= 2) /\
  surf_w (pixels (Render_init demo_map 32)) = trunc (width demo_map 32) /\
  surf_h (pixels (Render_init demo_map 32)) = trunc (height demo_map 32) /\
  Render_get_surface 32 (6, 4)%Z (Render_init demo_map 32)
  = Returned (pygame_Rect (get_surface 32 (6, 4)%Z)).
Proof.
  assert (Hr : 0 < 32) by lra.
  assert (Hcol : (0 <= 4 < cols demo_map)%Z) by (cbn; lia).
  assert (Hrow : (math_ceil (IZR 4 / 2) <= 6
                  < math_ceil (IZR 4 / 2) + rows demo_map)%Z).
  { rewrite math_ceil_half. change ((4 + 1) / 2)%Z with 2%Z. cbn. lia. }
  assert (Hfit : Z.odd (cols demo_map) = true \/ (4 < cols demo_map - 1)%Z
                 \/ 32 <= 2) by (left; reflexivity).
  destruct (Render_init_size demo_map 32) as [Hsw Hsh].
  { pose proof SQRT3_bounds. unfold height. cbn [rows demo_map grid_map]. lra. }
  { rewrite width_eq. cbn [cols demo_map grid_map].
    change ((5 + 1) / 2)%Z with 3%Z. change (5 / 2)%Z with 2%Z. lra. }
  repeat (split; [assumption|]).
  exact (Render_get_surface_returns demo_map 32 6 4 (Render_init demo_map 32)
           Hr Hcol Hrow Hfit Hsw Hsh).
Defined.
